(** * Solar Forecast AI: the chat component [SolarForecast.js]

    A shallow embedding of the React component
    [frontend/src/components/SolarForecast.js]: the submit handler
    [handleSubmit], the reset button, the "questions remaining" counter
    and the renderer [renderWeatherData] with its helper renderers.

    JavaScript functions are embedded as computations of one monad [M]
    over the component's world (its React state and the ordered log of
    the effects it performed), with exceptions for [throw]. *)

From Stdlib Require Import List String Ascii Bool Arith ZArith QArith Qround Lia.
From Stdlib Require Import DecimalString.
Import ListNotations.
Open Scope string_scope.
Set Warnings "-register-all".

(** ** JavaScript values

    The values the component handles come out of [JSON.parse] (axios
    decodes the response body) or are strings typed by the user.
    Numbers are the rationals denoted by finite doubles; an object is
    the list of its own properties in enumeration order. *)

Inductive value : Type :=
| VUndefined
| VNull
| VBool (b : bool)
| VNum (n : Q)
| VStr (s : string)
| VArr (items : list value)
| VObj (props : list (string * value)).

(** [ToBoolean]: [undefined], [null], [false], [0] and [""] are falsy,
    everything else (arrays and objects included) is truthy. *)
Definition truthy (v : value) : bool :=
  match v with
  | VUndefined | VNull => false
  | VBool b => b
  | VNum n => negb (Qnum n =? 0)%Z
  | VStr s => negb (String.eqb s "")
  | VArr _ | VObj _ => true
  end.

(** [v == null]: the values on which a property access throws and at
    which an optional chain [?.] stops. *)
Definition nullish (v : value) : bool :=
  match v with
  | VUndefined | VNull => true
  | _ => false
  end.

Fixpoint lookup (k : string) (props : list (string * value)) : value :=
  match props with
  | [] => VUndefined
  | (k', v) :: rest => if String.eqb k k' then v else lookup k rest
  end.

Definition number_of_nat (n : nat) : value := VNum (inject_Z (Z.of_nat n)).

(** [v[k]] for a [v] that is not nullish.  The keys the component reads
    are never members of a prototype, [length] apart: a missing own
    property reads as [undefined]. *)
Definition prop (v : value) (k : string) : value :=
  match v with
  | VObj props => lookup k props
  | VArr items => if String.eqb k "length" then number_of_nat (List.length items) else VUndefined
  | VStr s => if String.eqb k "length" then number_of_nat (String.length s) else VUndefined
  | _ => VUndefined
  end.

(** [v?.k] *)
Definition opt_prop (v : value) (k : string) : value :=
  if nullish v then VUndefined else prop v k.

(** [a === b] where [b] is a string literal. *)
Definition strict_eq_str (a : value) (lit : string) : bool :=
  match a with
  | VStr s => String.eqb s lit
  | _ => false
  end.

(** ** React elements

    What a JSX expression evaluates to: an element with its tag, its
    [className] and [key] props and its children, a JavaScript value
    placed as a child ([{expr}], literal text, and the [false] or [null]
    a conditional slot leaves behind), or the array of elements that a
    [map] leaves as a child. *)

Inductive jsx : Type :=
| JExpr (v : value)
| JElem (tag : string) (className : option string) (key : option nat) (children : list jsx)
| JList (items : list jsx).

Definition text (s : string) : jsx := JExpr (VStr s).
Definition jsx_null : jsx := JExpr VNull.

Definition jsx_truthy (j : jsx) : bool :=
  match j with
  | JExpr v => truthy v
  | JElem _ _ _ _ | JList _ => true
  end.

(** ** The component's state and world *)

Inductive TurnType : Type := user | assistant.

Definition TurnType_eqb (a b : TurnType) : bool :=
  match a, b with
  | user, user | assistant, assistant => true
  | _, _ => false
  end.

(** One entry of [conversations]: [{type, content, timestamp}]. *)
Record Turn : Type := mkTurn {
  type : TurnType;
  content : value;
  timestamp : string
}.

(** The four [useState] cells. *)
Record State : Type := mkState {
  message : string;
  conversations : list Turn;
  loading : bool;
  error : jsx
}.

Definition initial_state : State :=
  {| message := ""; conversations := []; loading := false; error := jsx_null |}.

(** The effects a handler performs, in the order it performs them. *)
Inductive Event : Type :=
| PreventDefault
| SetLoading (b : bool)
| SetError (e : jsx)
| AppendConversation (t : Turn)          (* setConversations(prev => [...prev, t]) *)
| SetConversations (l : list Turn)       (* setConversations(l) *)
| SetMessage (s : string)
| AxiosPost (url : string) (body : value) (headers : list (string * string)) (timeout : Z)
| ConsoleError (label : string).

Record World : Type := mkWorld {
  ui : State;
  log : list Event
}.

Definition initial_world : World := {| ui := initial_state; log := [] |}.

Definition is_post (e : Event) : bool :=
  match e with
  | AxiosPost _ _ _ _ => true
  | _ => false
  end.

(** The network requests issued so far. *)
Definition requests (w : World) : list Event := filter is_post (log w).

(** ** What axios hands back

    A settled [axios.post]: the promise resolves with a response, whose
    [data] is the decoded body, or rejects with an error that carries
    the response when the server sent one (a status outside 2xx) and
    none on a network error or on the 30 s timeout. *)

Record AxiosResponse : Type := mkResponse { data : value }.

Inductive exn : Type :=
| TypeError
| AxiosError (response : option AxiosResponse).

Inductive Reply : Type :=
| Resolved (res : AxiosResponse)
| Rejected (response : option AxiosResponse).

(** ** The monad of handlers and renderers *)

Inductive completion (A : Type) : Type :=
| Normal (a : A)
| Throw (e : exn).
Arguments Normal {A} a.
Arguments Throw {A} e.

Definition M (A : Type) : Type := World -> completion A * World.

Definition ret {A} (a : A) : M A := fun w => (Normal a, w).

Definition throw {A} (e : exn) : M A := fun w => (Throw e, w).

Definition bind {A B} (m : M A) (k : A -> M B) : M B :=
  fun w =>
    match m w with
    | (Normal a, w') => k a w'
    | (Throw e, w') => (Throw e, w')
    end.

Declare Scope js_scope.
Delimit Scope js_scope with js.
Notation "x <- m ;; k" := (bind m (fun x => k))
  (at level 61, m at next level, right associativity) : js_scope.
Notation "m ;; k" := (bind m (fun _ => k))
  (at level 61, right associativity) : js_scope.
Open Scope js_scope.

(** [try { body } catch (err) { handler err } finally { fin }] *)
Definition try_catch_finally {A} (body : M A) (handler : exn -> M A) (fin : M unit) : M A :=
  fun w =>
    let '(r, w1) :=
      match body w with
      | (Normal a, w') => (Normal a, w')
      | (Throw e, w') => handler e w'
      end in
    match fin w1 with
    | (Normal _, w2) => (r, w2)
    | (Throw e, w2) => (Throw e, w2)
    end.

Fixpoint mapM_from {A B} (f : A -> nat -> M B) (idx : nat) (l : list A) : M (list B) :=
  match l with
  | [] => ret []
  | a :: rest =>
      b <- f a idx ;;
      bs <- mapM_from f (S idx) rest ;;
      ret (b :: bs)
  end.

(** [v.k]: throws on [undefined] and [null]. *)
Definition get (v : value) (k : string) : M value :=
  if nullish v then throw TypeError else ret (prop v k).

(** [v.map((item, idx) => f item idx)]: only an array has a [map] to
    call; on anything else the call throws. *)
Definition map_method {B} (v : value) (f : value -> nat -> M B) : M (list B) :=
  match v with
  | VArr items => mapM_from f 0 items
  | _ => throw TypeError
  end.

(** *** State setters and other effects *)

Definition emit (e : Event) (f : State -> State) : M unit :=
  fun w => (Normal tt, {| ui := f (ui w); log := log w ++ [e] |}).

Definition with_message (s : string) (st : State) : State :=
  {| message := s; conversations := conversations st; loading := loading st; error := error st |}.
Definition with_conversations (l : list Turn) (st : State) : State :=
  {| message := message st; conversations := l; loading := loading st; error := error st |}.
Definition with_loading (b : bool) (st : State) : State :=
  {| message := message st; conversations := conversations st; loading := b; error := error st |}.
Definition with_error (e : jsx) (st : State) : State :=
  {| message := message st; conversations := conversations st; loading := loading st; error := e |}.

Definition setMessage (s : string) : M unit := emit (SetMessage s) (with_message s).
Definition setLoading (b : bool) : M unit := emit (SetLoading b) (with_loading b).
Definition setError (e : jsx) : M unit := emit (SetError e) (with_error e).
Definition setConversations (l : list Turn) : M unit :=
  emit (SetConversations l) (with_conversations l).
(** [setConversations(prev => [...prev, t])] *)
Definition appendConversation (t : Turn) : M unit :=
  emit (AppendConversation t) (fun st => with_conversations (conversations st ++ [t]) st).

Definition preventDefault : M unit := emit PreventDefault (fun st => st).
Definition console_error (label : string) : M unit := emit (ConsoleError label) (fun st => st).

(** The state the handler's closure captured at the last render. *)
Definition captured : M State := fun w => (Normal (ui w), w).

(** [axios.post(url, body, {headers, timeout})] followed by [await]:
    the request goes out, then the reply settles the promise. *)
Definition axios_post (url : string) (body : value) (headers : list (string * string))
    (timeout : Z) (reply : Reply) : M AxiosResponse :=
  emit (AxiosPost url body headers timeout) (fun st => st) ;;
  match reply with
  | Resolved res => ret res
  | Rejected response => throw (AxiosError response)
  end.

(** ** The submit handler *)

Definition LIMIT_MESSAGE : string :=
  "Maximum conversation limit reached. Please refresh to start a new conversation.".

Definition FALLBACK_MESSAGE : string := "Failed to get data. Please try again.".

(** [process.env.REACT_APP_API_URL || '/api'] *)
Definition apiUrl (REACT_APP_API_URL : option string) : string :=
  match REACT_APP_API_URL with
  | Some s => if String.eqb s "" then "/api" else s
  | None => "/api"
  end.

(** [err.response?.data] *)
Definition response_data (err : exn) : value :=
  match err with
  | AxiosError (Some r) => data r
  | _ => VUndefined
  end.

(** The [errorMessage] of the [catch] block. *)
Definition errorMessage (err : exn) : M jsx :=
  if truthy (opt_prop (response_data err) "details") then
    title <- get (response_data err) "error" ;;
    details <- get (response_data err) "details" ;;
    ret (JElem "div" None None
           [ JElem "strong" None None [JExpr title];
             JElem "br" None None [];
             JExpr details ])
  else
    let e := opt_prop (response_data err) "error" in
    ret (if truthy e then JExpr e else text FALLBACK_MESSAGE).

Definition userMessage (seen : State) (now : string) : Turn :=
  {| type := user; content := VStr (message seen); timestamp := now |}.

Definition assistantMessage (res : AxiosResponse) (now : string) : Turn :=
  {| type := assistant; content := data res; timestamp := now |}.

Definition chat_request (env : option string) (seen : State) : Event :=
  AxiosPost (apiUrl env ++ "/chat/")
            (VObj [("message", VStr (message seen))])
            [("Content-Type", "application/json")]
            30000.

(** [handleSubmit]: [env] is [REACT_APP_API_URL], [now_user] and
    [now_assistant] are what [new Date().toLocaleTimeString()] gives at
    its two calls, [reply] is how the request settles. *)
Definition handleSubmit (env : option string) (now_user now_assistant : string)
    (reply : Reply) : M unit :=
  seen <- captured ;;
  preventDefault ;;
  if (10 <=? List.length (conversations seen))%nat then
    setError (text LIMIT_MESSAGE)
  else
    try_catch_finally
      (setLoading true ;;
       setError jsx_null ;;
       appendConversation (userMessage seen now_user) ;;
       setMessage "" ;;
       res <- axios_post (apiUrl env ++ "/chat/")
                         (VObj [("message", VStr (message seen))])
                         [("Content-Type", "application/json")]
                         30000 reply ;;
       appendConversation (assistantMessage res now_assistant))
      (fun err =>
         console_error "Error:" ;;
         msg <- errorMessage err ;;
         setError msg)
      (setLoading false).

(** The [onClick] of "Start New Conversation". *)
Definition reset : M unit :=
  setConversations [] ;;
  setError jsx_null.

(** The [onChange] of the text input. *)
Definition onChange (typed : string) : M unit := setMessage typed.

(** ** What the view derives from the state *)

(** [5 - Math.floor(conversations.length/2)]: the division is the one
    of JavaScript numbers, so it is exact, and [Math.floor] rounds. *)
Definition remainingQuestions (st : State) : Z :=
  5 - Qfloor (inject_Z (Z.of_nat (List.length (conversations st))) / 2).

Definition countTurns (who : TurnType) (l : list Turn) : nat :=
  List.length (filter (fun t => TurnType_eqb (type t) who) l).

(** Replaying logged effects on a state. *)
Definition apply_event (st : State) (e : Event) : State :=
  match e with
  | SetLoading b => with_loading b st
  | SetError j => with_error j st
  | AppendConversation t => with_conversations (conversations st ++ [t]) st
  | SetConversations l => with_conversations l st
  | SetMessage s => with_message s st
  | PreventDefault | AxiosPost _ _ _ _ | ConsoleError _ => st
  end.

Definition replay (events : list Event) (st : State) : State :=
  fold_left apply_event events st.

(** ** The renderers *)

Definition el (tag className : string) (children : list jsx) : jsx :=
  JElem tag (Some className) None children.
Definition keyed (tag : string) (key : nat) (className : string) (children : list jsx) : jsx :=
  JElem tag (Some className) (Some key) children.
Definition plain (tag : string) (children : list jsx) : jsx :=
  JElem tag None None children.
Definition br : jsx := plain "br" [].

(** [v === lit], with [v] still to be read. *)
Definition is_literal (v : M value) (lit : string) : M bool :=
  x <- v ;; ret (strict_eq_str x lit).

(** [cond && rhs] in a child slot: [false] when [cond] is. *)
Definition js_and (cond : M bool) (rhs : M jsx) : M jsx :=
  c <- cond ;;
  if c then rhs else ret (JExpr (VBool false)).

Definition renderHourlyForecast (content : value) : M jsx :=
  hourly_forecast <- get content "hourly_forecast" ;;
  cards <- map_method hourly_forecast (fun hour idx =>
    h <- get hour "hour" ;;
    conditions <- get hour "conditions" ;;
    solar_potential <- get hour "solar_potential" ;;
    ret (keyed "div" idx "col-md-4 mb-2"
          [ el "div" "card h-100"
              [ el "div" "card-body"
                  [ el "h6" "card-title" [JExpr h];
                    el "p" "card-text"
                      [ plain "strong" [text "Conditions:"]; text " "; JExpr conditions; br;
                        plain "strong" [text "Solar Potential:"]; text " ";
                        JExpr solar_potential ] ] ] ])) ;;
  ret (el "div" "hourly-forecast mb-3"
        [ plain "h5" [text "Hourly Forecast"];
          el "div" "row" [JList cards] ]).

Definition renderDailyForecast (content : value) : M jsx :=
  daily_forecast <- get content "daily_forecast" ;;
  cards <- map_method daily_forecast (fun day idx =>
    date <- get day "date" ;;
    conditions <- get day "conditions" ;;
    solar_potential <- get day "solar_potential" ;;
    ret (keyed "div" idx "card mb-2"
          [ el "div" "card-body"
              [ el "h6" "card-title" [JExpr date];
                el "p" "card-text"
                  [ plain "strong" [text "Conditions:"]; text " "; JExpr conditions; br;
                    plain "strong" [text "Solar Potential:"]; text " ";
                    JExpr solar_potential ] ] ])) ;;
  ret (el "div" "daily-forecast mb-3"
        [ plain "h5" [text "Daily Forecast"];
          JList cards ]).

Definition renderMarineConditions (content : value) : M jsx :=
  wave_height <- (w <- get content "wave_conditions" ;; get w "wave_height") ;;
  wave_direction <- (w <- get content "wave_conditions" ;; get w "wave_direction") ;;
  sea_temperature <- (w <- get content "wave_conditions" ;; get w "sea_temperature") ;;
  ret (el "div" "marine-conditions mb-3"
        [ plain "h5" [text "Marine Conditions"];
          el "div" "card"
            [ el "div" "card-body"
                [ el "p" "card-text"
                    [ plain "strong" [text "Wave Height:"]; text " "; JExpr wave_height; br;
                      plain "strong" [text "Wave Direction:"]; text " "; JExpr wave_direction; br;
                      plain "strong" [text "Sea Temperature:"]; text " ";
                      JExpr sea_temperature ] ] ] ]).

Definition renderAirQuality (content : value) : M jsx :=
  aqi_level <- (a <- get content "air_quality_metrics" ;; get a "aqi_level") ;;
  pollutants <- (a <- get content "air_quality_metrics" ;; get a "pollutants") ;;
  health_implications <-
    (a <- get content "air_quality_metrics" ;; get a "health_implications") ;;
  ret (el "div" "air-quality mb-3"
        [ plain "h5" [text "Air Quality"];
          el "div" "card"
            [ el "div" "card-body"
                [ el "p" "card-text"
                    [ plain "strong" [text "AQI Level:"]; text " "; JExpr aqi_level; br;
                      plain "strong" [text "Pollutants:"]; text " "; JExpr pollutants; br;
                      plain "strong" [text "Health Implications:"]; text " ";
                      JExpr health_implications ] ] ] ]).

Definition renderRecommendations (content : value) : M jsx :=
  recommendations <- get content "recommendations" ;;
  if negb (truthy (opt_prop recommendations "length")) then ret jsx_null
  else
    recommendations <- get content "recommendations" ;;
    cards <- map_method recommendations (fun rec idx =>
      category <- get rec "category" ;;
      advice <- get rec "advice" ;;
      ret (keyed "div" idx "col-md-6 mb-2"
            [ el "div" "card h-100"
                [ el "div" "card-body"
                    [ el "h6" "card-title" [JExpr category];
                      el "p" "card-text" [JExpr advice] ] ] ])) ;;
    ret (el "div" "recommendations-section mb-3"
          [ plain "h5" [text "Recommendations"];
            el "div" "row" [JList cards] ]).

Section Renderer.

(** [JSON.stringify] of the platform: a string, or [undefined] where
    there is nothing to serialise. *)
Variable JSON_stringify : value -> value.

Definition renderWeatherData (content : value) : M jsx :=
  query_type <- get content "query_type" ;;
  if negb (truthy query_type) then ret (JExpr (JSON_stringify content))
  else
    city <- (l <- get content "location" ;; get l "city") ;;
    lat <- (l <- get content "location" ;; c <- get l "coordinates" ;; get c "lat") ;;
    lon <- (l <- get content "location" ;; c <- get l "coordinates" ;; get c "lon") ;;
    summary <- get content "summary" ;;
    hourly <- js_and (is_literal (get content "query_type") "forecast")
                (js_and (is_literal (get content "time_frame") "hourly")
                   (renderHourlyForecast content)) ;;
    daily <- js_and (is_literal (get content "query_type") "forecast")
               (js_and (is_literal (get content "time_frame") "daily")
                  (renderDailyForecast content)) ;;
    marine <- js_and (is_literal (get content "query_type") "marine")
                (renderMarineConditions content) ;;
    air <- js_and (is_literal (get content "query_type") "air_quality")
             (renderAirQuality content) ;;
    recommendations <- renderRecommendations content ;;
    ret (el "div" "weather-analysis"
          [ el "div" "location-info mb-3"
              [ plain "h4"
                  [ JExpr city;
                    el "small" "text-muted ml-2"
                      [ text "("; JExpr lat; text ", "; JExpr lon; text ")" ] ] ];
            el "div" "summary-section mb-3" [ el "p" "lead" [JExpr summary] ];
            hourly; daily; marine; air;
            recommendations ]).

(** [renderMessage]: a user turn shows its text, an assistant turn
    goes through [renderWeatherData]. *)
Definition renderMessage (msg : Turn) (index : nat) : M jsx :=
  let isUser := TurnType_eqb (type msg) user in
  body <- (if isUser then ret (JExpr (content msg)) else renderWeatherData (content msg)) ;;
  ret (keyed "div" index
         ("message " ++ (if isUser then "user-message" else "assistant-message") ++ " mb-4")
         [ el "div" "message-header"
             [ plain "strong" [text (if isUser then "You" else "Assistant")];
               el "small" "text-muted ml-2" [text (timestamp msg)] ];
           el "div"
             ("message-content mt-2 p-3 rounded " ++
              (if isUser then "bg-primary text-white" else "bg-light"))
             [body] ]).

End Renderer.

(** ** The parts of a rendered card

    The card of [renderWeatherData] is one [div] whose children are the
    location header, the summary, four conditional slots and the slot of
    the recommendations.  React shows the elements among them and skips
    the [false] and [null] an unselected slot holds. *)

Inductive Block : Type := HourlyBlock | DailyBlock | MarineBlock | AirQualityBlock.

Inductive Part : Type :=
| LocationHeader
| SummaryText
| TypeBlock (b : Block)
| RecommendationsBlock.

Definition part_of_class (c : string) : option Part :=
  if String.eqb c "location-info mb-3" then Some LocationHeader
  else if String.eqb c "summary-section mb-3" then Some SummaryText
  else if String.eqb c "hourly-forecast mb-3" then Some (TypeBlock HourlyBlock)
  else if String.eqb c "daily-forecast mb-3" then Some (TypeBlock DailyBlock)
  else if String.eqb c "marine-conditions mb-3" then Some (TypeBlock MarineBlock)
  else if String.eqb c "air-quality mb-3" then Some (TypeBlock AirQualityBlock)
  else if String.eqb c "recommendations-section mb-3" then Some RecommendationsBlock
  else None.

Definition part_of (child : jsx) : list Part :=
  match child with
  | JElem _ (Some c) _ _ =>
      match part_of_class c with
      | Some p => [p]
      | None => []
      end
  | _ => []
  end.

(** The parts a rendered card shows, in the order it shows them. *)
Definition parts (card : jsx) : list Part :=
  match card with
  | JElem _ _ _ children => flat_map part_of children
  | _ => []
  end.

(** The two discriminants, read as the enumerations of the data model. *)
Inductive QueryType : Type := forecast | marine | air_quality | other_query.
Inductive TimeFrame : Type := hourly | daily | other_frame.

Definition query_type_of (v : value) : QueryType :=
  if strict_eq_str v "forecast" then forecast
  else if strict_eq_str v "marine" then marine
  else if strict_eq_str v "air_quality" then air_quality
  else other_query.

Definition time_frame_of (v : value) : TimeFrame :=
  if strict_eq_str v "hourly" then hourly
  else if strict_eq_str v "daily" then daily
  else other_frame.

(** The selection rule, as one match on the two discriminants. *)
Definition selected_block (query_type time_frame : value) : option Block :=
  match query_type_of query_type, time_frame_of time_frame with
  | forecast, hourly => Some HourlyBlock
  | forecast, daily => Some DailyBlock
  | marine, _ => Some MarineBlock
  | air_quality, _ => Some AirQualityBlock
  | _, _ => None
  end.

Definition nonempty_sequence (v : value) : bool :=
  match v with
  | VArr (_ :: _) => true
  | _ => false
  end.

Definition expected_parts (content : value) : list Part :=
  [LocationHeader; SummaryText]
  ++ match selected_block (prop content "query_type") (prop content "time_frame") with
     | Some b => [TypeBlock b]
     | None => []
     end
  ++ (if nonempty_sequence (prop content "recommendations") then [RecommendationsBlock] else []).

(** A document that keeps the producer's side of the contract: it has a
    [location] with [coordinates], the payload its discriminants select
    is there (a sequence of entries, or the record of the marine and
    air-quality answers), and [recommendations], when it has a truthy
    [length], is a sequence of entries. *)
Definition entries (v : value) : bool :=
  match v with
  | VArr items => forallb (fun x => negb (nullish x)) items
  | _ => false
  end.

Definition payload_present (content : value) : bool :=
  match selected_block (prop content "query_type") (prop content "time_frame") with
  | Some HourlyBlock => entries (prop content "hourly_forecast")
  | Some DailyBlock => entries (prop content "daily_forecast")
  | Some MarineBlock => negb (nullish (prop content "wave_conditions"))
  | Some AirQualityBlock => negb (nullish (prop content "air_quality_metrics"))
  | None => true
  end.

Definition recommendations_renderable (content : value) : bool :=
  let r := prop content "recommendations" in
  negb (truthy (opt_prop r "length")) || entries r.

Definition contract_kept (content : value) : bool :=
  negb (nullish content)
  && negb (nullish (prop content "location"))
  && negb (nullish (prop (prop content "location") "coordinates"))
  && payload_present content
  && recommendations_renderable content.

(** ** A serialiser for the examples

    [JSON.stringify] on data decoded from JSON.  A number prints as
    JavaScript prints the double nearest to it: the shortest digits that
    read back as that double, laid out as Number::toString lays them
    out, and [null] when no finite double is nearest.  The renderer
    itself takes the serialiser as a parameter; this one instantiates it
    in examples. *)

Definition hex_digit (n : nat) : string :=
  String.substring n 1 "0123456789abcdef".

Definition escape_char (c : ascii) : string :=
  let n := nat_of_ascii c in
  if Nat.eqb n 34 then "\" ++ String c ""
  else if Nat.eqb n 92 then "\\"
  else if Nat.eqb n 8 then "\b"
  else if Nat.eqb n 9 then "\t"
  else if Nat.eqb n 10 then "\n"
  else if Nat.eqb n 12 then "\f"
  else if Nat.eqb n 13 then "\r"
  else if Nat.ltb n 32 then "\u00" ++ hex_digit (n / 16) ++ hex_digit (n mod 16)
  else String c "".

Fixpoint escape (s : string) : string :=
  match s with
  | EmptyString => ""
  | String c rest => escape_char c ++ escape rest
  end.

Definition quote (s : string) : string :=
  String (ascii_of_nat 34) (escape s ++ String (ascii_of_nat 34) "").

Definition round_half_even (a b : Z) : Z :=
  let fl := (a / b)%Z in
  let r := (a mod b)%Z in
  if (2 * r <? b)%Z then fl
  else if (b <? 2 * r)%Z then (fl + 1)%Z
  else if Z.even fl then fl else (fl + 1)%Z.

(** [n / d < 2 ^ e] *)
Definition below_power_of_two (n d e : Z) : bool :=
  if (0 <=? e)%Z then (n <? d * 2 ^ e)%Z else (n * 2 ^ (- e) <? d)%Z.

(** The double nearest to the positive rational [n / d], as significand
    and exponent of its last place; [None] when it is out of range. *)
Definition to_double (n d : Z) : option (Z * Z) :=
  let e0 := (Z.log2 n - Z.log2 d)%Z in
  let e := if below_power_of_two n d e0 then (e0 - 1)%Z else e0 in
  let u := (Z.max e (-1022) - 52)%Z in
  let m := if (0 <=? u)%Z
           then round_half_even n (d * 2 ^ u)
           else round_half_even (n * 2 ^ (- u)) d in
  if ((0 <=? u) && (2 ^ 1024 <=? m * 2 ^ u))%Z then None else Some (m, u).

Definition same_double (a b : Z * Z) : bool :=
  let u := Z.min (snd a) (snd b) in
  (fst a * 2 ^ (snd a - u) =? fst b * 2 ^ (snd b - u))%Z.

(** [n / d < 10 ^ p] *)
Definition below_power_of_ten (n d p : Z) : bool :=
  if (0 <=? p)%Z then (n <? d * 10 ^ p)%Z else (n * 10 ^ (- p) <? d)%Z.

Fixpoint first_power_above (fuel : nat) (n d p : Z) : Z :=
  match fuel with
  | O => p
  | S fuel' => if below_power_of_ten n d p then p else first_power_above fuel' n d (p + 1)
  end.

(** The [n] of Number::toString: [10 ^ (n - 1) <= x < 10 ^ n]. *)
Definition decimal_exponent (n d : Z) : Z :=
  first_power_above 8 n d (((Z.log2 n - Z.log2 d) * 30103) / 100000 - 1).

(** Does [s * 10 ^ p] read back as the double [x]? *)
Definition reads_back (x : Z * Z) (s p : Z) : bool :=
  match (if (0 <=? p)%Z then to_double (s * 10 ^ p) 1 else to_double s (10 ^ (- p))) with
  | Some y => same_double x y
  | None => false
  end.

(** The shortest digits [s] of [k] places, [k] from [k0] on, with
    [s * 10 ^ (n - k)] reading back as [x = xn / xd]; of two, the
    closer to [x], and the even one when they are as close. *)
Fixpoint shortest_digits (fuel : nat) (x : Z * Z) (xn xd n k : Z) : Z * Z :=
  let p := (n - k)%Z in
  let a := if (0 <=? p)%Z then xn else (xn * 10 ^ (- p))%Z in
  let b := if (0 <=? p)%Z then (xd * 10 ^ p)%Z else xd in
  let lo := (a / b)%Z in
  let hi := (lo + 1)%Z in
  let lo_ok := reads_back x lo p in
  let hi_ok := reads_back x hi p in
  let dlo := (a - lo * b)%Z in
  let dhi := (hi * b - a)%Z in
  match fuel with
  | O => (lo, k)
  | S fuel' =>
      if lo_ok && hi_ok then
        (if (dlo <? dhi)%Z then (lo, k)
         else if (dhi <? dlo)%Z then (hi, k)
         else if Z.even lo then (lo, k) else (hi, k))
      else if lo_ok then (lo, k)
      else if hi_ok then (hi, k)
      else shortest_digits fuel' x xn xd n (k + 1)
  end.

Definition digits_of (z : Z) : string :=
  if (z =? 0)%Z then "0" else NilEmpty.string_of_int (Z.to_int z).

Fixpoint zeros (n : nat) : string :=
  match n with
  | O => ""
  | S n' => "0" ++ zeros n'
  end.

(** Number::toString on the digits [s] (of [k] places) and exponent [n]. *)
Definition number_format (s k n : Z) : string :=
  let ds := digits_of s in
  if ((k <=? n) && (n <=? 21))%Z then ds ++ zeros (Z.to_nat (n - k))
  else if ((0 <? n) && (n <=? 21))%Z then
    String.substring 0 (Z.to_nat n) ds ++ "." ++ String.substring (Z.to_nat n) (Z.to_nat (k - n)) ds
  else if ((-6 <? n) && (n <=? 0))%Z then "0." ++ zeros (Z.to_nat (- n)) ++ ds
  else
    let e := (n - 1)%Z in
    let exponent := (if (0 <? e)%Z then "+" else "-") ++ digits_of (Z.abs e) in
    if (k =? 1)%Z then ds ++ "e" ++ exponent
    else String.substring 0 1 ds ++ "." ++ String.substring 1 (Z.to_nat (k - 1)) ds
         ++ "e" ++ exponent.

(** [JSON.stringify] of the number a literal of value [q] is read as. *)
Definition number_text (q : Q) : string :=
  let n := Qnum (Qred q) in
  let d := Zpos (Qden (Qred q)) in
  if (n =? 0)%Z then "0"
  else
    match to_double (Z.abs n) d with
    | None => "null"
    | Some (m, u) =>
        if (m =? 0)%Z then "0"
        else
          let xn := if (0 <=? u)%Z then (m * 2 ^ u)%Z else m in
          let xd := if (0 <=? u)%Z then 1%Z else (2 ^ (- u))%Z in
          let e10 := decimal_exponent xn xd in
          let '(s, k) := shortest_digits 17 (m, u) xn xd e10 1 in
          let '(s, e10) := if (s =? 10 ^ k)%Z then ((s / 10)%Z, (e10 + 1)%Z) else (s, e10) in
          (if (n <? 0)%Z then "-" else "") ++ number_format s k e10
    end.

Fixpoint serialise (v : value) : option string :=
  match v with
  | VUndefined => None
  | VNull => Some "null"
  | VBool b => Some (if b then "true" else "false")
  | VNum n => Some (number_text n)
  | VStr s => Some (quote s)
  | VArr items =>
      Some ("[" ++ String.concat ","
                     (map (fun x => match serialise x with
                                    | Some t => t
                                    | None => "null"
                                    end) items) ++ "]")
  | VObj props =>
      Some ("{" ++ String.concat ","
                     (flat_map (fun kv => match serialise (snd kv) with
                                          | Some t => [quote (fst kv) ++ ":" ++ t]
                                          | None => []
                                          end) props) ++ "}")
  end.

Definition stringify (v : value) : value :=
  match serialise v with
  | Some t => VStr t
  | None => VUndefined
  end.


(** ** Computations that leave the world alone

    A computation is pure when it gives one result whatever the world
    it runs in, and hands the world back as it found it: the state
    cells unread and unset, the log of effects (requests among them) not
    extended. *)
Definition pure {A} (m : M A) : Prop :=
  exists r, forall w, m w = (r, w).

(** A computation returns when it completes normally, with one value,
    in every world, and leaves the world alone. *)
Definition returns {A} (m : M A) : Prop :=
  exists a, forall w, m w = (Normal a, w).

(** ** Documents used as examples *)

Definition lagos : value :=
  VObj [ ("query_type", VStr "forecast");
         ("time_frame", VStr "daily");
         ("location", VObj [ ("city", VStr "Lagos");
                             ("coordinates", VObj [("lat", VNum (13 # 2)); ("lon", VNum (17 # 5))]) ]);
         ("summary", VStr "Mostly sunny");
         ("daily_forecast",
          VArr [ VObj [ ("date", VStr "2024-01-01"); ("conditions", VStr "Sunny");
                        ("solar_potential", VStr "High") ] ]) ].

Definition untyped_answer : value := VObj [("answer", VStr "It is sunny")].

Definition blank_query_type : value :=
  VObj [ ("query_type", VStr "");
         ("location", VObj [("city", VStr "Lagos")]);
         ("summary", VStr "Mostly sunny") ].

(** ** Sessions used as examples *)

(** Typing a question and submitting it. *)
Definition ask (question : string) (now_user now_assistant : string) (reply : Reply) : M unit :=
  onChange question ;;
  handleSubmit None now_user now_assistant reply.

Definition after {A} (m : M A) (w : World) : World := snd (m w).

(** Five questions, each lost to a timeout: five user turns and no
    assistant turn. *)
Definition five_unanswered : World :=
  after (ask "q1" "10:01" "" (Rejected None) ;;
         ask "q2" "10:02" "" (Rejected None) ;;
         ask "q3" "10:03" "" (Rejected None) ;;
         ask "q4" "10:04" "" (Rejected None) ;;
         ask "q5" "10:05" "" (Rejected None)) initial_world.

Definition plain_answer (s : string) : Reply :=
  Resolved {| data := VObj [("answer", VStr s)] |}.

(** Five questions, each answered: ten turns. *)
Definition five_answered : World :=
  after (ask "q1" "10:01" "10:01" (plain_answer "a1") ;;
         ask "q2" "10:02" "10:02" (plain_answer "a2") ;;
         ask "q3" "10:03" "10:03" (plain_answer "a3") ;;
         ask "q4" "10:04" "10:04" (plain_answer "a4") ;;
         ask "q5" "10:05" "10:05" (plain_answer "a5")) initial_world.

(** The sixth question typed after five failures. *)
Definition typing_sixth_question : World := after (onChange "q6") five_unanswered.

(** The first question typed. *)
Definition typing_first_question : World := after (onChange "q1") initial_world.

(** A second question typed while the error of the first, which timed
    out, is still shown. *)
Definition typing_after_failure : World :=
  after (onChange "q2") (after (ask "q1" "10:01" "10:31" (Rejected None)) initial_world).

Definition rate_limited : option AxiosResponse :=
  Some {| data := VObj [("error", VStr "RateLimited"); ("details", VStr "Try again in 60s")] |}.

Definition details_only : option AxiosResponse :=
  Some {| data := VObj [("details", VStr "Try again in 60s")] |}.

(** The effects of a submission up to the point where it waits for the
    reply. *)
Definition submit_prefix (env : option string) (seen : State) (now_user : string) : list Event :=
  [ PreventDefault; SetLoading true; SetError jsx_null;
    AppendConversation (userMessage seen now_user); SetMessage "";
    chat_request env seen ].

(** ** The handler on both sides of its [await]

    [handleSubmit] suspends once, at [await axios.post(...)].  What it
    does before it suspends needs the state the closure captured and the
    clock; what it does when the request settles needs the reply and the
    clock again, and nothing of the closure. *)

(** The settled promise, as [await] sees it. *)
Definition settle (reply : Reply) : M AxiosResponse :=
  match reply with
  | Resolved res => ret res
  | Rejected response => throw (AxiosError response)
  end.

(** From the call to the [await]; [false] when the guard returned. *)
Definition handleSubmit_until_await (env : option string) (now_user : string) : M bool :=
  seen <- captured ;;
  preventDefault ;;
  if (10 <=? List.length (conversations seen))%nat then
    setError (text LIMIT_MESSAGE) ;;
    ret false
  else
    setLoading true ;;
    setError jsx_null ;;
    appendConversation (userMessage seen now_user) ;;
    setMessage "" ;;
    emit (chat_request env seen) (fun st => st) ;;
    ret true.

(** From the [await] to the end: the rest of [try], [catch], [finally]. *)
Definition handleSubmit_resume (now_assistant : string) (reply : Reply) : M unit :=
  try_catch_finally
    (res <- settle reply ;;
     appendConversation (assistantMessage res now_assistant))
    (fun err =>
       console_error "Error:" ;;
       msg <- errorMessage err ;;
       setError msg)
    (setLoading false).

(** ** What the form shows

    [disabled] of the text input, the condition under which "Start New
    Conversation" is rendered, the one under which the alert is, and the
    two conditions on the state among the three that enable the Send
    button (the third, [message.trim()], is on the text alone). *)


Definition reset_shown (st : State) : bool :=
  (10 <=? List.length (conversations st))%nat.

Definition alert_shown (st : State) : bool := jsx_truthy (error st).

Definition send_possible (st : State) : bool :=
  negb (loading st) && negb (10 <=? List.length (conversations st))%nat.

(** ** The component over time

    The handlers run one at a time, and a submission is two runs: up to
    its [await], and from it.  Between the two the user may type and
    may restart.  A submission starts only through the Send button, so
    only when [send_possible]; typing and restarting are allowed here in
    every state, which is more than the form allows. *)

Record Session : Type := mkSession {
  world : World;
  in_flight : nat          (* submissions suspended at their await *)
}.

Definition initial_session : Session := {| world := initial_world; in_flight := 0 |}.

Inductive Action : Type :=
| Typing (typed : string)
| Send (env : option string) (now : string)
| Settle (now : string) (reply : Reply)
| Restart.

Definition perform (a : Action) (s : Session) : option Session :=
  match a with
  | Typing typed =>
      Some {| world := after (onChange typed) (world s); in_flight := in_flight s |}
  | Send env now =>
      if send_possible (ui (world s)) then
        Some {| world := after (handleSubmit_until_await env now) (world s);
                in_flight := S (in_flight s) |}
      else None
  | Settle now reply =>
      match in_flight s with
      | S n => Some {| world := after (handleSubmit_resume now reply) (world s);
                       in_flight := n |}
      | O => None
      end
  | Restart =>
      Some {| world := after reset (world s); in_flight := in_flight s |}
  end.

Fixpoint run (actions : list Action) (s : Session) : option Session :=
  match actions with
  | [] => Some s
  | a :: rest =>
      match perform a s with
      | Some s' => run rest s'
      | None => None
      end
  end.

Definition Reachable (s : Session) : Prop :=
  exists actions, run actions initial_session = Some s.

Definition turns (s : Session) : list Turn := conversations (ui (world s)).

Definition is_send (a : Action) : bool :=
  match a with
  | Send _ _ => true
  | _ => false
  end.

Definition is_assistant (t : Turn) : bool := TurnType_eqb (type t) assistant.

(** No assistant turn directly after another one. *)
Fixpoint no_double_reply (l : list Turn) : bool :=
  match l with
  | [] => true
  | t :: rest =>
      match rest with
      | [] => true
      | t' :: _ => negb (is_assistant t && is_assistant t') && no_double_reply rest
      end
  end.

(** The last turn is an assistant turn. *)
Fixpoint ends_with_reply (l : list Turn) : bool :=
  match l with
  | [] => false
  | t :: rest =>
      match rest with
      | [] => is_assistant t
      | _ :: _ => ends_with_reply rest
      end
  end.

(** The first turn is an assistant turn. *)
Definition starts_with_reply (l : list Turn) : bool :=
  match l with
  | t :: _ => is_assistant t
  | [] => false
  end.

(** What holds between any two handler runs. *)
Definition session_invariant (s : Session) : Prop :=
  no_double_reply (turns s) = true
  /\ ((in_flight s = 0%nat
       /\ loading (ui (world s)) = false
       /\ (List.length (turns s) <= 11)%nat
       /\ (List.length (turns s) = 11%nat -> ends_with_reply (turns s) = true))
      \/ (in_flight s = 1%nat
          /\ loading (ui (world s)) = true
          /\ (List.length (turns s) <= 10)%nat
          /\ ends_with_reply (turns s) = false)).

(** ** The cards of a sequence, one by one *)

Definition hourly_card (hour : value) (idx : nat) : jsx :=
  keyed "div" idx "col-md-4 mb-2"
    [ el "div" "card h-100"
        [ el "div" "card-body"
            [ el "h6" "card-title" [JExpr (prop hour "hour")];
              el "p" "card-text"
                [ plain "strong" [text "Conditions:"]; text " ";
                  JExpr (prop hour "conditions"); br;
                  plain "strong" [text "Solar Potential:"]; text " ";
                  JExpr (prop hour "solar_potential") ] ] ] ].

Definition daily_card (day : value) (idx : nat) : jsx :=
  keyed "div" idx "card mb-2"
    [ el "div" "card-body"
        [ el "h6" "card-title" [JExpr (prop day "date")];
          el "p" "card-text"
            [ plain "strong" [text "Conditions:"]; text " ";
              JExpr (prop day "conditions"); br;
              plain "strong" [text "Solar Potential:"]; text " ";
              JExpr (prop day "solar_potential") ] ] ].

Definition recommendation_card (rec : value) (idx : nat) : jsx :=
  keyed "div" idx "col-md-6 mb-2"
    [ el "div" "card h-100"
        [ el "div" "card-body"
            [ el "h6" "card-title" [JExpr (prop rec "category")];
              el "p" "card-text" [JExpr (prop rec "advice")] ] ] ].

(** [items.map((item, idx) => card item idx)] for a [card] that cannot
    throw: the cards in the order of the items, keyed by position. *)
Definition cards_from (card : value -> nat -> jsx) (idx : nat) (items : list value) : list jsx :=
  map (fun p => card (fst p) (snd p)) (combine items (seq idx (List.length items))).

(** ** The list of messages

    [conversations.map((msg, index) => renderMessage(msg, index))] *)
Definition renderConversation (JSON_stringify : value -> value) (l : list Turn) : M (list jsx) :=
  mapM_from (renderMessage JSON_stringify) 0 l.

(** The contents [renderWeatherData] returns on: anything but [null] and
    [undefined] when [query_type] is falsy, a document that keeps the
    contract when it is truthy. *)
Definition renderable (content : value) : bool :=
  negb (nullish content)
  && (negb (truthy (prop content "query_type")) || contract_kept content).

Definition turn_renderable (t : Turn) : bool :=
  match type t with
  | user => true
  | assistant => renderable (content t)
  end.

(** A computation that throws nothing but [TypeError]. *)
Definition throws_only_TypeError {A} (m : M A) : Prop :=
  forall w e w', m w = (Throw e, w') -> e = TypeError.

(** ** More sessions used as examples *)

Definition timeout_question (n : string) : list Action :=
  [Typing n; Send None n; Settle n (Rejected None)].

Definition answered_question (n : string) : list Action :=
  [Typing n; Send None n; Settle n (plain_answer n)].

(** Ten questions in a row, each lost to a timeout. *)
Definition ten_timeouts : list Action :=
  (timeout_question "1" ++ timeout_question "2" ++ timeout_question "3"
   ++ timeout_question "4" ++ timeout_question "5" ++ timeout_question "6"
   ++ timeout_question "7" ++ timeout_question "8" ++ timeout_question "9"
   ++ timeout_question "10")%list.

(** A lost question, four answered ones, a tenth turn whose request is
    still out when the user restarts, its answer arriving afterwards,
    and five more answered questions. *)
Definition restart_while_waiting : list Action :=
  (timeout_question "1" ++ answered_question "2" ++ answered_question "3"
   ++ answered_question "4" ++ answered_question "5"
   ++ [Typing "6"; Send None "6"; Restart; Settle "6" (plain_answer "6")]
   ++ answered_question "7" ++ answered_question "8" ++ answered_question "9"
   ++ answered_question "10" ++ answered_question "11")%list.

(** A question sent and not answered yet. *)
Definition waiting_for_reply : list Action := [Typing "1"; Send None "1"].

Definition session_after (actions : list Action) : Session :=
  match run actions initial_session with
  | Some s => s
  | None => initial_session
  end.

(** A forecast whose location is missing. *)
Definition forecast_without_location : value :=
  VObj [ ("query_type", VStr "forecast"); ("time_frame", VStr "daily");
         ("summary", VStr "Mostly sunny");
         ("daily_forecast", VArr []) ].

Definition two_hours : value :=
  VObj [ ("query_type", VStr "forecast"); ("time_frame", VStr "hourly");
         ("hourly_forecast",
          VArr [ VObj [("hour", VStr "09:00"); ("conditions", VStr "Clear");
                       ("solar_potential", VStr "Medium")];
                 VObj [("hour", VStr "10:00"); ("conditions", VStr "Sunny");
                       ("solar_potential", VStr "High")] ]);
         ("recommendations",
          VArr [ VObj [("category", VStr "Panels"); ("advice", VStr "Clean them")] ]) ].

(** ** A submission and what happens before it settles *)

Definition is_settle (a : Action) : bool :=
  match a with
  | Settle _ _ => true
  | _ => false
  end.

Definition is_restart (a : Action) : bool :=
  match a with
  | Restart => true
  | _ => false
  end.

(** Nine questions lost to timeouts, and a tenth typed. *)
Definition nine_timeouts_and_a_question : list Action :=
  (timeout_question "1" ++ timeout_question "2" ++ timeout_question "3"
   ++ timeout_question "4" ++ timeout_question "5" ++ timeout_question "6"
   ++ timeout_question "7" ++ timeout_question "8" ++ timeout_question "9"
   ++ [Typing "10"])%list.

(** The tenth question is sent. *)
Definition tenth_question_sent : list Action :=
  (nine_timeouts_and_a_question ++ [Send None "10"])%list.

(** The user restarts while the request of the tenth question is out,
    and the request then times out. *)
Definition restart_then_timeout : list Action :=
  (tenth_question_sent ++ [Restart; Settle "10" (Rejected None)])%list.

(** ** The card, written out

    What [renderWeatherData] builds for a document, as one expression of
    the document's fields: the header, the summary, the four slots, of
    which the one the discriminants select holds its block and the
    others [false], and the slot of the recommendations. *)
















(** * Properties *)

(** ** Running computations *)

Lemma countTurns_total (l : list Turn) :
  List.length l = (countTurns user l + countTurns assistant l)%nat.
Proof.
  unfold countTurns.
  induction l as [|t l IH]; simpl; [reflexivity|].
  destruct (type t); simpl; lia.
Qed.

Lemma floor_half (n : Z) : Qfloor (inject_Z n / 2) = (n / 2)%Z.
Proof.
  unfold Qfloor, Qdiv, Qmult, Qinv, inject_Z. simpl.
  rewrite Z.mul_1_r. reflexivity.
Qed.


(** The catch block always finds something to show: [errorMessage]
    returns, touches nothing, and what it returns is truthy. *)
Lemma errorMessage_returns (err : exn) :
  exists msg, jsx_truthy msg = true /\ forall w, errorMessage err w = (Normal msg, w).
Proof.
  unfold errorMessage.
  destruct (truthy (opt_prop (response_data err) "details")) eqn:Hd.
  - unfold opt_prop in Hd.
    destruct (nullish (response_data err)) eqn:Hn; [discriminate|].
    unfold bind, get, ret. rewrite Hn. eexists; split; [|reflexivity]. reflexivity.
  - unfold ret.
    destruct (truthy (opt_prop (response_data err) "error")) eqn:He;
      eexists; (split; [|reflexivity]); simpl; [exact He | reflexivity].
Qed.

(** A submission at ten turns or more: the guard returns at once. *)
Lemma handleSubmit_at_limit env now_user now_assistant reply (w : World) :
  (10 <= List.length (conversations (ui w)))%nat ->
  handleSubmit env now_user now_assistant reply w
  = (Normal tt,
     {| ui := with_error (text LIMIT_MESSAGE) (ui w);
        log := log w ++ [PreventDefault; SetError (text LIMIT_MESSAGE)] |}).
Proof.
  intros Hlen. apply Nat.leb_le in Hlen.
  unfold handleSubmit, bind, captured, preventDefault, setError, emit.
  cbn -[Nat.leb]. rewrite Hlen. cbn. rewrite <- app_assoc. reflexivity.
Qed.

(** A submission below ten turns whose request is answered. *)
Lemma handleSubmit_resolved env now_user now_assistant res (w : World) :
  (List.length (conversations (ui w)) < 10)%nat ->
  handleSubmit env now_user now_assistant (Resolved res) w
  = (Normal tt,
     {| ui := {| message := "";
                 conversations := (conversations (ui w) ++ [userMessage (ui w) now_user])
                                  ++ [assistantMessage res now_assistant];
                 loading := false;
                 error := jsx_null |};
        log := log w ++ submit_prefix env (ui w) now_user
               ++ [AppendConversation (assistantMessage res now_assistant); SetLoading false] |}).
Proof.
  intros Hlen. apply Nat.leb_gt in Hlen.
  unfold handleSubmit, bind, captured, preventDefault, emit.
  cbn -[Nat.leb]. rewrite Hlen.
  unfold try_catch_finally. cbn.
  repeat rewrite <- app_assoc. reflexivity.
Qed.

(** A submission below ten turns whose request fails. *)
Lemma handleSubmit_rejected env now_user now_assistant response (w : World) :
  (List.length (conversations (ui w)) < 10)%nat ->
  exists msg,
    (forall w0, errorMessage (AxiosError response) w0 = (Normal msg, w0))
    /\ jsx_truthy msg = true
    /\ handleSubmit env now_user now_assistant (Rejected response) w
        = (Normal tt,
           {| ui := {| message := "";
                       conversations := conversations (ui w) ++ [userMessage (ui w) now_user];
                       loading := false;
                       error := msg |};
              log := log w ++ submit_prefix env (ui w) now_user
                     ++ [ConsoleError "Error:"; SetError msg; SetLoading false] |}).
Proof.
  intros Hlen. apply Nat.leb_gt in Hlen.
  destruct (errorMessage_returns (AxiosError response)) as (msg & Htruthy & Hmsg).
  exists msg. split; [exact Hmsg|]. split; [exact Htruthy|].
  unfold handleSubmit, bind, captured, preventDefault, emit.
  cbn -[Nat.leb]. rewrite Hlen.
  unfold try_catch_finally. cbn -[errorMessage]. rewrite Hmsg. cbn.
  repeat rewrite <- app_assoc. reflexivity.
Qed.

Lemma requests_after (w : World) (events : list Event) (u : State) :
  requests {| ui := u; log := log w ++ events |} = (requests w ++ filter is_post events)%list.
Proof. unfold requests. simpl. apply filter_app. Qed.

(** ** The turn limit *)

(** C1, as the code has it: a submission made when the session holds ten
    turns or more (five questions, each answered) is rejected with the
    limit message, whatever the reply would have been; no request goes
    out and the turns, like the in-flight flag, stay as they were. *)
Theorem submission_rejected_at_ten_turns env now_user now_assistant reply (w : World) :
  (10 <= List.length (conversations (ui w)))%nat ->
  let w' := after (handleSubmit env now_user now_assistant reply) w in
  fst (handleSubmit env now_user now_assistant reply w) = Normal tt
  /\ error (ui w') = text LIMIT_MESSAGE
  /\ conversations (ui w') = conversations (ui w)
  /\ requests w' = requests w
  /\ loading (ui w') = loading (ui w).
Proof.
  intros Hlen w'. subst w'. unfold after.
  rewrite (handleSubmit_at_limit env now_user now_assistant reply w Hlen).
  cbn [fst snd]. rewrite requests_after. cbn. rewrite app_nil_r.
  repeat split; reflexivity.
Qed.

Lemma submission_rejected_at_ten_turns_witness :
  (10 <= List.length (conversations (ui five_answered)))%nat
  /\ fst (handleSubmit None "10:06" "10:06" (plain_answer "a6") five_answered) = Normal tt
  /\ error (ui (after (handleSubmit None "10:06" "10:06" (plain_answer "a6")) five_answered))
     = text LIMIT_MESSAGE
  /\ conversations
       (ui (after (handleSubmit None "10:06" "10:06" (plain_answer "a6")) five_answered))
     = conversations (ui five_answered)
  /\ requests (after (handleSubmit None "10:06" "10:06" (plain_answer "a6")) five_answered)
     = requests five_answered
  /\ loading (ui (after (handleSubmit None "10:06" "10:06" (plain_answer "a6")) five_answered))
     = loading (ui five_answered).
Proof.
  split.
  - apply Nat.leb_le. reflexivity.
  - apply (submission_rejected_at_ten_turns None "10:06" "10:06" (plain_answer "a6")
             five_answered).
    apply Nat.leb_le. reflexivity.
Defined.

(** C1 as stated fails: after five questions that all timed out the
    session has five user turns, and the sixth submission is not
    rejected: it appends a sixth user turn, sends a sixth request and
    shows no limit message. *)
Lemma sixth_question_after_five_failures :
  countTurns user (conversations (ui typing_sixth_question)) = 5%nat
  /\ countTurns user
       (conversations
          (ui (after (handleSubmit None "10:06" "10:06" (plain_answer "a6"))
                 typing_sixth_question))) = 6%nat
  /\ List.length (requests typing_sixth_question) = 5%nat
  /\ List.length
       (requests (after (handleSubmit None "10:06" "10:06" (plain_answer "a6"))
                    typing_sixth_question)) = 6%nat
  /\ error (ui (after (handleSubmit None "10:06" "10:06" (plain_answer "a6"))
                  typing_sixth_question))
     <> text LIMIT_MESSAGE.
Proof.
  repeat split; try reflexivity.
  vm_compute. discriminate.
Qed.

(** ** The counter shown to the user *)

(** C2: the number shown is 5 minus the floor of half the total number
    of turns, user and assistant turns counted together; nothing else of
    the state enters it. *)
Theorem remainingQuestions_formula (st : State) :
  remainingQuestions st
  = (5 - Z.of_nat (countTurns user (conversations st)
                   + countTurns assistant (conversations st)) / 2)%Z.
Proof.
  unfold remainingQuestions.
  rewrite floor_half, <- countTurns_total. reflexivity.
Qed.

Example remainingQuestions_initially : remainingQuestions initial_state = 5%Z.
Proof. reflexivity. Qed.

Example remainingQuestions_after_five_failures :
  remainingQuestions (ui five_unanswered) = 3%Z.
Proof. reflexivity. Qed.

Example remainingQuestions_after_five_answers :
  remainingQuestions (ui five_answered) = 0%Z.
Proof. reflexivity. Qed.

(** ** Failed requests *)

Lemma countTurns_app who (l l' : list Turn) :
  countTurns who (l ++ l')%list = (countTurns who l + countTurns who l')%nat.
Proof. unfold countTurns. rewrite filter_app, length_app. reflexivity. Qed.

(** A submission run in one piece, nothing else being handled between
    its request and the settling: it completes with the in-flight flag
    cleared, and when the request fails the user turn it appended is
    the last turn, no assistant turn was added, and the error is a
    truthy value, the fallback text when no response came back. *)
Lemma handleSubmit_failed_in_one_piece env now_user now_assistant reply (w : World) :
  (List.length (conversations (ui w)) < 10)%nat ->
  let w' := after (handleSubmit env now_user now_assistant reply) w in
  fst (handleSubmit env now_user now_assistant reply w) = Normal tt
  /\ loading (ui w') = false
  /\ forall response, reply = Rejected response ->
       conversations (ui w') = (conversations (ui w) ++ [userMessage (ui w) now_user])%list
       /\ countTurns assistant (conversations (ui w'))
          = countTurns assistant (conversations (ui w))
       /\ jsx_truthy (error (ui w')) = true
       /\ (response = None -> error (ui w') = text FALLBACK_MESSAGE).
Proof.
  intros Hlen w'. subst w'. unfold after.
  destruct reply as [res | response].
  - rewrite (handleSubmit_resolved env now_user now_assistant res w Hlen).
    cbn [fst snd ui loading]. split; [reflexivity|]. split; [reflexivity|].
    intros response Heq. discriminate.
  - destruct (handleSubmit_rejected env now_user now_assistant response w Hlen)
      as (msg & Hmsg & Htruthy & Hrun).
    rewrite Hrun. cbn [fst snd ui loading conversations error].
    split; [reflexivity|]. split; [reflexivity|].
    intros response' Heq. injection Heq as <-.
    split; [reflexivity|]. split; [|split].
    + rewrite countTurns_app. cbn. lia.
    + exact Htruthy.
    + intros ->. specialize (Hmsg initial_world).
      cbn in Hmsg. injection Hmsg as <-. reflexivity.
Qed.

(** ** The message of a failed request *)

(** C4 as stated fails: a body that carries [details] and no [error] is
    not answered with the fallback text; the message is the two-part
    element, with nothing under the title. *)
Lemma details_without_error_is_not_the_fallback :
  prop (response_data (AxiosError details_only)) "error" = VUndefined
  /\ fst (errorMessage (AxiosError details_only) initial_world)
     = Normal (plain "div" [ plain "strong" [JExpr VUndefined]; br;
                             JExpr (VStr "Try again in 60s") ])
  /\ fst (errorMessage (AxiosError details_only) initial_world)
     <> Normal (text FALLBACK_MESSAGE).
Proof.
  split; [reflexivity|]. split; [reflexivity|].
  vm_compute. discriminate.
Qed.

(** C4, as the code has it: the branch is taken on [details] alone.
    With a truthy [details] the message is the element holding the
    body's [error] as title and its [details], both as they came; with
    no truthy [details] and a truthy [error] it is [error] alone; with
    neither (no response, no body, empty fields) it is the fallback
    text. *)
Theorem errorMessage_cases (err : exn) (w : World) :
  let body := response_data err in
  (truthy (opt_prop body "details") = true ->
     errorMessage err w
     = (Normal (plain "div" [ plain "strong" [JExpr (prop body "error")]; br;
                              JExpr (prop body "details") ]), w))
  /\ (truthy (opt_prop body "details") = false ->
      truthy (opt_prop body "error") = true ->
      errorMessage err w = (Normal (JExpr (prop body "error")), w))
  /\ (truthy (opt_prop body "details") = false ->
      truthy (opt_prop body "error") = false ->
      errorMessage err w = (Normal (text FALLBACK_MESSAGE), w)).
Proof.
  intros body. subst body. unfold errorMessage.
  split; [|split].
  - intros Hd. rewrite Hd.
    unfold opt_prop in Hd.
    destruct (nullish (response_data err)) eqn:Hn; [discriminate|].
    unfold bind, get, ret. rewrite Hn. reflexivity.
  - intros Hd He. rewrite Hd, He.
    unfold opt_prop in *.
    destruct (nullish (response_data err)); [discriminate|]. reflexivity.
  - intros Hd He. rewrite Hd, He. reflexivity.
Qed.

Lemma errorMessage_cases_witness :
  errorMessage (AxiosError rate_limited) initial_world
  = (Normal (plain "div" [ plain "strong" [JExpr (VStr "RateLimited")]; br;
                           JExpr (VStr "Try again in 60s") ]), initial_world)
  /\ errorMessage (AxiosError (Some {| data := VObj [("error", VStr "RateLimited")] |}))
       initial_world
     = (Normal (JExpr (VStr "RateLimited")), initial_world)
  /\ errorMessage (AxiosError None) initial_world
     = (Normal (text FALLBACK_MESSAGE), initial_world).
Proof.
  split; [|split].
  - exact (proj1 (errorMessage_cases (AxiosError rate_limited) initial_world) eq_refl).
  - exact (proj1 (proj2 (errorMessage_cases
             (AxiosError (Some {| data := VObj [("error", VStr "RateLimited")] |}))
             initial_world)) eq_refl eq_refl).
  - exact (proj2 (proj2 (errorMessage_cases (AxiosError None) initial_world))
             eq_refl eq_refl).
Defined.

(** ** Starting over *)

(** C7: the reset handler has no guard; after it the session has no
    turn and no error, and the next submission goes through: its user
    turn is appended, its request is sent, and the reply is appended
    when it comes. *)
Theorem reset_clears_and_reopens env now_user now_assistant reply (w : World) :
  let w1 := after reset w in
  let w2 := after (handleSubmit env now_user now_assistant reply) w1 in
  fst (reset w) = Normal tt
  /\ conversations (ui w1) = []
  /\ error (ui w1) = jsx_null
  /\ requests w2 = (requests w ++ [chat_request env (ui w1)])%list
  /\ conversations (ui w2)
     = userMessage (ui w1) now_user
       :: match reply with
          | Resolved res => [assistantMessage res now_assistant]
          | Rejected _ => []
          end.
Proof.
  intros w1 w2.
  assert (H1 : conversations (ui w1) = []) by reflexivity.
  assert (Hlen : (List.length (conversations (ui w1)) < 10)%nat)
    by (rewrite H1; cbn; lia).
  assert (Hreq : requests w1 = requests w).
  { subst w1. unfold after, reset, bind, setConversations, setError, emit, requests.
    cbn. rewrite <- app_assoc, filter_app. cbn. apply app_nil_r. }
  split; [reflexivity|]. split; [exact H1|]. split; [reflexivity|].
  subst w2. unfold after.
  destruct reply as [res | response].
  - rewrite (handleSubmit_resolved env now_user now_assistant res w1 Hlen).
    cbn [snd ui conversations]. rewrite requests_after, Hreq, H1. split; reflexivity.
  - destruct (handleSubmit_rejected env now_user now_assistant response w1 Hlen)
      as (msg & _ & _ & Hrun).
    rewrite Hrun. cbn [snd ui conversations].
    rewrite requests_after, Hreq, H1. split; reflexivity.
Qed.

Example reset_after_the_limit :
  let w := after (reset ;; ask "q6" "10:06" "10:06" (plain_answer "a6")) five_answered in
  List.length (conversations (ui five_answered)) = 10%nat
  /\ conversations (ui w)
     = [ {| type := user; content := VStr "q6"; timestamp := "10:06" |};
         {| type := assistant; content := VObj [("answer", VStr "a6")]; timestamp := "10:06" |} ]
  /\ error (ui w) = jsx_null.
Proof. repeat split. Qed.

(** ** The error of an earlier attempt *)

(** C9: a submission that passes the guard sets the error to [null]
    right after raising the in-flight flag, before it appends the user
    turn and before it sends the request; so in the state in which the
    request is in flight no error is shown, and whatever is set later
    comes from this request. *)
Theorem submission_clears_error_first env now_user now_assistant reply (w : World) :
  (List.length (conversations (ui w)) < 10)%nat ->
  let w' := after (handleSubmit env now_user now_assistant reply) w in
  let until_await :=
    [ PreventDefault; SetLoading true; SetError jsx_null;
      AppendConversation (userMessage (ui w) now_user); SetMessage "";
      chat_request env (ui w) ] in
  let in_flight := replay until_await (ui w) in
  exists settle,
    log w' = (log w ++ until_await ++ settle)%list
    /\ ui w' = replay settle in_flight
    /\ error in_flight = jsx_null
    /\ loading in_flight = true
    /\ conversations in_flight = (conversations (ui w) ++ [userMessage (ui w) now_user])%list.
Proof.
  intros Hlen w' until_await in_flight. subst w'. unfold after.
  destruct reply as [res | response].
  - rewrite (handleSubmit_resolved env now_user now_assistant res w Hlen).
    exists [AppendConversation (assistantMessage res now_assistant); SetLoading false].
    repeat split.
  - destruct (handleSubmit_rejected env now_user now_assistant response w Hlen)
      as (msg & _ & _ & Hrun).
    rewrite Hrun.
    exists [ConsoleError "Error:"; SetError msg; SetLoading false].
    repeat split.
Qed.

Lemma submission_clears_error_first_witness :
  (List.length (conversations (ui typing_after_failure)) < 10)%nat
  /\ error (ui typing_after_failure) = text FALLBACK_MESSAGE
  /\ exists settle,
       log (after (handleSubmit None "10:32" "10:33" (plain_answer "a2")) typing_after_failure)
       = (log typing_after_failure
          ++ [ PreventDefault; SetLoading true; SetError jsx_null;
               AppendConversation (userMessage (ui typing_after_failure) "10:32");
               SetMessage ""; chat_request None (ui typing_after_failure) ]
          ++ settle)%list.
Proof.
  assert (Hlen : (List.length (conversations (ui typing_after_failure)) < 10)%nat)
    by (apply Nat.ltb_lt; reflexivity).
  split; [exact Hlen|]. split; [reflexivity|].
  destruct (submission_clears_error_first None "10:32" "10:33" (plain_answer "a2")
              typing_after_failure Hlen)
    as (settle & Hlog & _).
  exists settle. exact Hlog.
Defined.

(** ** The renderer leaves the world alone *)

Lemma pure_ret {A} (a : A) : pure (ret a).
Proof. exists (Normal a). reflexivity. Qed.

Lemma pure_throw {A} (e : exn) : pure (@throw A e).
Proof. exists (Throw e). reflexivity. Qed.

Lemma pure_bind {A B} (m : M A) (k : A -> M B) :
  pure m -> (forall a, pure (k a)) -> pure (bind m k).
Proof.
  intros [r Hm] Hk. unfold bind.
  destruct r as [a | e].
  - destruct (Hk a) as [r' Hka]. exists r'. intros w. rewrite Hm. apply Hka.
  - exists (Throw e). intros w. rewrite Hm. reflexivity.
Qed.

Lemma pure_get (v : value) (k : string) : pure (get v k).
Proof. unfold get. destruct (nullish v); [apply pure_throw | apply pure_ret]. Qed.

Lemma pure_mapM_from {A B} (f : A -> nat -> M B) (l : list A) :
  (forall a idx, pure (f a idx)) -> forall idx, pure (mapM_from f idx l).
Proof.
  intros Hf. induction l as [|a rest IH]; intros idx; simpl.
  - apply pure_ret.
  - apply pure_bind; [apply Hf|]. intros b.
    apply pure_bind; [apply IH|]. intros bs. apply pure_ret.
Qed.

Lemma pure_map_method {B} (v : value) (f : value -> nat -> M B) :
  (forall a idx, pure (f a idx)) -> pure (map_method v f).
Proof.
  intros Hf. destruct v; simpl; try apply pure_throw.
  apply pure_mapM_from. exact Hf.
Qed.

Lemma pure_is_literal (v : M value) (lit : string) : pure v -> pure (is_literal v lit).
Proof. intros Hv. apply pure_bind; [exact Hv|]. intros x. apply pure_ret. Qed.

Lemma pure_js_and (cond : M bool) (rhs : M jsx) : pure cond -> pure rhs -> pure (js_and cond rhs).
Proof.
  intros Hc Hr. apply pure_bind; [exact Hc|].
  intros [|]; [exact Hr | apply pure_ret].
Qed.

Create HintDb purity.
#[local] Hint Resolve pure_ret pure_throw pure_get pure_is_literal pure_js_and : purity.

Ltac pure_steps :=
  repeat first
    [ solve [auto with purity]
    | apply pure_map_method; intros
    | apply pure_bind; [| intro] ].

Lemma pure_renderHourlyForecast content : pure (renderHourlyForecast content).
Proof. unfold renderHourlyForecast. pure_steps. Qed.

Lemma pure_renderDailyForecast content : pure (renderDailyForecast content).
Proof. unfold renderDailyForecast. pure_steps. Qed.

Lemma pure_renderMarineConditions content : pure (renderMarineConditions content).
Proof. unfold renderMarineConditions. pure_steps. Qed.

Lemma pure_renderAirQuality content : pure (renderAirQuality content).
Proof. unfold renderAirQuality. pure_steps. Qed.

Lemma pure_renderRecommendations content : pure (renderRecommendations content).
Proof.
  unfold renderRecommendations.
  apply pure_bind; [apply pure_get|]. intros r.
  destruct (negb (truthy (opt_prop r "length"))); pure_steps.
Qed.

#[local] Hint Resolve pure_renderHourlyForecast pure_renderDailyForecast
  pure_renderMarineConditions pure_renderAirQuality pure_renderRecommendations : purity.

Lemma pure_renderWeatherData JSON_stringify content : pure (renderWeatherData JSON_stringify content).
Proof.
  unfold renderWeatherData.
  apply pure_bind; [apply pure_get|]. intros qt.
  destruct (negb (truthy qt)); pure_steps.
Qed.

Lemma pure_renderMessage JSON_stringify msg index :
  pure (renderMessage JSON_stringify msg index).
Proof.
  unfold renderMessage.
  apply pure_bind; [| intro; apply pure_ret].
  destruct (TurnType_eqb (type msg) user);
    [apply pure_ret | apply pure_renderWeatherData].
Qed.

(** C8: on a document the renderer gives one result, the same in every
    world it is run in; running it changes neither the state cells nor
    the log of effects, so it sends no request; called twice in a row
    it gives the same output twice. *)
Theorem renderWeatherData_deterministic JSON_stringify (content : value) :
  exists r,
    (forall w, renderWeatherData JSON_stringify content w = (r, w))
    /\ (forall w, requests (after (renderWeatherData JSON_stringify content) w) = requests w)
    /\ (forall w,
          fst (renderWeatherData JSON_stringify content
                 (after (renderWeatherData JSON_stringify content) w))
          = fst (renderWeatherData JSON_stringify content w)).
Proof.
  destruct (pure_renderWeatherData JSON_stringify content) as [r Hr].
  exists r. unfold after. repeat split; intros w; rewrite !Hr; reflexivity.
Qed.

(** ** The serialised fallback *)

Lemma get_returns (v : value) (k : string) :
  nullish v = false -> forall w, get v k w = (Normal (prop v k), w).
Proof. intros Hn w. unfold get. rewrite Hn. reflexivity. Qed.

Lemma renderWeatherData_falsy JSON_stringify (content : value) (w : World) :
  nullish content = false ->
  truthy (prop content "query_type") = false ->
  renderWeatherData JSON_stringify content w = (Normal (JExpr (JSON_stringify content)), w).
Proof.
  intros Hn Hq. unfold renderWeatherData, bind.
  rewrite (get_returns content "query_type" Hn), Hq. reflexivity.
Qed.

(** C6 as stated fails: [null] has no [query_type], and rendering it
    throws where the property is read instead of giving its
    serialisation. *)
Lemma rendering_null_throws :
  prop VNull "query_type" = VUndefined
  /\ stringify VNull = VStr "null"
  /\ renderWeatherData stringify VNull initial_world = (Throw TypeError, initial_world).
Proof. repeat split. Qed.

(** C6, as the code has it: for every input other than [null] and
    [undefined] that has no [query_type], the renderer returns the
    serialisation of the whole input and nothing else: no part of a
    card, and no read of any other field. *)
Theorem renderWeatherData_without_query_type JSON_stringify (content : value) (w : World) :
  nullish content = false ->
  prop content "query_type" = VUndefined ->
  renderWeatherData JSON_stringify content w = (Normal (JExpr (JSON_stringify content)), w)
  /\ parts (JExpr (JSON_stringify content)) = [].
Proof.
  intros Hn Hq. split; [|reflexivity].
  apply renderWeatherData_falsy; [exact Hn|]. rewrite Hq. reflexivity.
Qed.

Lemma renderWeatherData_without_query_type_witness :
  prop untyped_answer "query_type" = VUndefined
  /\ renderWeatherData stringify untyped_answer initial_world
     = (Normal (JExpr (stringify untyped_answer)), initial_world)
  /\ parts (JExpr (stringify untyped_answer)) = [].
Proof.
  split; [reflexivity|].
  apply (renderWeatherData_without_query_type stringify untyped_answer initial_world);
    reflexivity.
Defined.

(** C10: the fallback is taken on the falsiness of [query_type], not on
    its absence: a document whose [query_type] is missing, [null], the
    empty string, [0] or [false] is rendered as its serialisation, never
    as a card. *)
Theorem renderWeatherData_falsy_query_type JSON_stringify (content : value) (w : World) :
  nullish content = false ->
  (prop content "query_type" = VUndefined
   \/ prop content "query_type" = VNull
   \/ prop content "query_type" = VStr ""
   \/ prop content "query_type" = VNum 0
   \/ prop content "query_type" = VBool false) ->
  renderWeatherData JSON_stringify content w = (Normal (JExpr (JSON_stringify content)), w)
  /\ parts (JExpr (JSON_stringify content)) = [].
Proof.
  intros Hn Hq. split; [|reflexivity].
  apply renderWeatherData_falsy; [exact Hn|].
  destruct Hq as [-> | [-> | [-> | [-> | ->]]]]; reflexivity.
Qed.

Lemma renderWeatherData_falsy_query_type_witness :
  prop blank_query_type "query_type" = VStr ""
  /\ renderWeatherData stringify blank_query_type initial_world
     = (Normal (JExpr (stringify blank_query_type)), initial_world)
  /\ parts (JExpr (stringify blank_query_type)) = [].
Proof.
  split; [reflexivity|].
  apply (renderWeatherData_falsy_query_type stringify blank_query_type initial_world).
  - reflexivity.
  - right. right. left. reflexivity.
Defined.


(** ** The parts of a card *)

Lemma bind_Normal {A B} (m : M A) (k : A -> M B) w b w' :
  bind m k w = (Normal b, w') ->
  exists a w1, m w = (Normal a, w1) /\ k a w1 = (Normal b, w').
Proof.
  unfold bind. destruct (m w) as [[a | e] w1]; intros H; [eauto | discriminate].
Qed.

Lemma get_Normal v k w x w' :
  get v k w = (Normal x, w') -> x = prop v k.
Proof.
  unfold get. destruct (nullish v); intros H; [discriminate|].
  injection H as <- _. reflexivity.
Qed.

Lemma strict_eq_str_true v lit : strict_eq_str v lit = true -> v = VStr lit.
Proof.
  destruct v; simpl; try discriminate.
  intros H. apply String.eqb_eq in H. subst. reflexivity.
Qed.

(** A slot [v.k === lit && rhs] shows what [rhs] shows when the test
    holds, and nothing otherwise. *)
Lemma guarded_slot content k lit (rhs : M jsx) (shown : list Part) (c : bool) :
  (forall w j w', rhs w = (Normal j, w') -> part_of j = if c then shown else []) ->
  forall w j w',
    js_and (is_literal (get content k) lit) rhs w = (Normal j, w') ->
    part_of j = if strict_eq_str (prop content k) lit && c then shown else [].
Proof.
  intros Hrhs w j w' H.
  unfold js_and, is_literal in H.
  apply bind_Normal in H as (b & w1 & Hb & H).
  apply bind_Normal in Hb as (x & w2 & Hx & Hb).
  apply get_Normal in Hx. subst x.
  unfold ret in Hb. injection Hb as <- _.
  destruct (strict_eq_str (prop content k) lit); simpl.
  - exact (Hrhs _ _ _ H).
  - unfold ret in H. injection H as <- _. reflexivity.
Qed.

Ltac past_bind H :=
  let a := fresh "a" in
  let w := fresh "w" in
  let Ha := fresh "Ha" in
  apply bind_Normal in H as (a & w & Ha & H).

Ltac root_of H :=
  repeat past_bind H;
  unfold ret in H;
  injection H as <- _;
  reflexivity.

Lemma renderHourlyForecast_part content w j w' :
  renderHourlyForecast content w = (Normal j, w') -> part_of j = [TypeBlock HourlyBlock].
Proof. unfold renderHourlyForecast. intros H. root_of H. Qed.

Lemma renderDailyForecast_part content w j w' :
  renderDailyForecast content w = (Normal j, w') -> part_of j = [TypeBlock DailyBlock].
Proof. unfold renderDailyForecast. intros H. root_of H. Qed.

Lemma renderMarineConditions_part content w j w' :
  renderMarineConditions content w = (Normal j, w') -> part_of j = [TypeBlock MarineBlock].
Proof. unfold renderMarineConditions. intros H. root_of H. Qed.

Lemma renderAirQuality_part content w j w' :
  renderAirQuality content w = (Normal j, w') -> part_of j = [TypeBlock AirQualityBlock].
Proof. unfold renderAirQuality. intros H. root_of H. Qed.

Lemma truthy_length_of_array (items : list value) :
  truthy (opt_prop (VArr items) "length") = nonempty_sequence (VArr items).
Proof. destruct items; reflexivity. Qed.

Lemma renderRecommendations_part content w j w' :
  renderRecommendations content w = (Normal j, w') ->
  part_of j
  = if nonempty_sequence (prop content "recommendations") then [RecommendationsBlock] else [].
Proof.
  unfold renderRecommendations. intros H.
  apply bind_Normal in H as (r & w1 & Hr & H).
  apply get_Normal in Hr. subst r.
  destruct (truthy (opt_prop (prop content "recommendations") "length")) eqn:Hlen;
    cbn [negb] in H.
  - apply bind_Normal in H as (r & w2 & Hr & H).
    apply get_Normal in Hr. subst r.
    apply bind_Normal in H as (cards & w3 & Hcards & H).
    unfold ret in H. injection H as <- _.
    destruct (prop content "recommendations") as [ | | | | | items | ];
      try (cbn in Hcards; discriminate).
    rewrite truthy_length_of_array in Hlen. rewrite Hlen. reflexivity.
  - unfold ret in H. injection H as <- _.
    destruct (prop content "recommendations") as [ | | | | | items | ]; try reflexivity.
    rewrite truthy_length_of_array in Hlen. rewrite Hlen. reflexivity.
Qed.

(** The four guarded slots together show what the one match selects. *)
Lemma slots_follow_selection (qt tf : value) :
  ((if strict_eq_str qt "forecast" && (strict_eq_str tf "hourly" && true)
    then [TypeBlock HourlyBlock] else [])
   ++ (if strict_eq_str qt "forecast" && (strict_eq_str tf "daily" && true)
       then [TypeBlock DailyBlock] else [])
   ++ (if strict_eq_str qt "marine" && true then [TypeBlock MarineBlock] else [])
   ++ (if strict_eq_str qt "air_quality" && true then [TypeBlock AirQualityBlock] else []))%list
  = match selected_block qt tf with
    | Some b => [TypeBlock b]
    | None => []
    end.
Proof.
  unfold selected_block, query_type_of, time_frame_of.
  rewrite !andb_true_r.
  destruct (strict_eq_str qt "forecast") eqn:Ef.
  - apply strict_eq_str_true in Ef. subst qt. cbn [andb].
    destruct (strict_eq_str tf "hourly") eqn:Eh.
    + apply strict_eq_str_true in Eh. subst tf. reflexivity.
    + destruct (strict_eq_str tf "daily"); reflexivity.
  - cbn [andb app].
    destruct (strict_eq_str qt "marine") eqn:Em.
    + apply strict_eq_str_true in Em. subst qt. reflexivity.
    + destruct (strict_eq_str qt "air_quality"); reflexivity.
Qed.

Lemma renderWeatherData_parts JSON_stringify content w t w' :
  truthy (prop content "query_type") = true ->
  renderWeatherData JSON_stringify content w = (Normal t, w') ->
  parts t = expected_parts content.
Proof.
  intros Hq H. unfold renderWeatherData in H.
  apply bind_Normal in H as (qt & wq & Hqt & H).
  apply get_Normal in Hqt. subst qt. rewrite Hq in H. cbn [negb] in H.
  do 4 past_bind H.
  apply bind_Normal in H as (hourly_slot & wh & Hhourly & H).
  apply bind_Normal in H as (daily_slot & wd & Hdaily & H).
  apply bind_Normal in H as (marine_slot & wm & Hmarine & H).
  apply bind_Normal in H as (air_slot & wa & Hair & H).
  apply bind_Normal in H as (recs_slot & wr & Hrecs & H).
  unfold ret in H. injection H as <- _.
  apply (guarded_slot content "query_type" "forecast" _ [TypeBlock HourlyBlock]
           (strict_eq_str (prop content "time_frame") "hourly" && true)) in Hhourly;
    [| apply (guarded_slot content "time_frame" "hourly" _ [TypeBlock HourlyBlock] true);
       apply renderHourlyForecast_part ].
  apply (guarded_slot content "query_type" "forecast" _ [TypeBlock DailyBlock]
           (strict_eq_str (prop content "time_frame") "daily" && true)) in Hdaily;
    [| apply (guarded_slot content "time_frame" "daily" _ [TypeBlock DailyBlock] true);
       apply renderDailyForecast_part ].
  apply (guarded_slot content "query_type" "marine" _ [TypeBlock MarineBlock] true) in Hmarine;
    [| apply renderMarineConditions_part ].
  apply (guarded_slot content "query_type" "air_quality" _ [TypeBlock AirQualityBlock] true)
    in Hair; [| apply renderAirQuality_part ].
  apply renderRecommendations_part in Hrecs.
  unfold expected_parts. rewrite <- slots_follow_selection.
  unfold parts, el. cbn [flat_map].
  rewrite Hhourly, Hdaily, Hmarine, Hair, Hrecs.
  cbn [part_of]. change (part_of_class "location-info mb-3") with (Some LocationHeader).
  change (part_of_class "summary-section mb-3") with (Some SummaryText).
  cbn [app]. rewrite app_nil_r, <- !app_assoc. reflexivity.
Qed.

(** *** A document that keeps the contract is rendered *)

Lemma returns_ret {A} (a : A) : returns (ret a).
Proof. exists a. reflexivity. Qed.

Lemma returns_bind {A B} (m : M A) (k : A -> M B) :
  returns m -> (forall a, returns (k a)) -> returns (bind m k).
Proof.
  intros [a Hm] Hk. destruct (Hk a) as [b Hb].
  exists b. intros w. unfold bind. rewrite Hm. apply Hb.
Qed.

Lemma returns_get (v : value) (k : string) : nullish v = false -> returns (get v k).
Proof. intros Hn. exists (prop v k). apply get_returns. exact Hn. Qed.

Lemma returns_get_then {B} (v : value) (key : string) (k : value -> M B) :
  nullish v = false -> returns (k (prop v key)) -> returns (bind (get v key) k).
Proof.
  intros Hn [b Hb]. exists b. intros w.
  unfold bind. rewrite (get_returns v key Hn). apply Hb.
Qed.

Lemma returns_mapM_from {B} (f : value -> nat -> M B) (items : list value) :
  (forall item idx, nullish item = false -> returns (f item idx)) ->
  forallb (fun x => negb (nullish x)) items = true ->
  forall idx, returns (mapM_from f idx items).
Proof.
  intros Hf. induction items as [|item rest IH]; intros Hall idx; simpl.
  - apply returns_ret.
  - simpl in Hall. apply andb_prop in Hall as [Hitem Hrest].
    apply negb_true_iff in Hitem.
    apply returns_bind; [apply Hf; exact Hitem|]. intros b.
    apply returns_bind; [apply IH; exact Hrest|]. intros bs. apply returns_ret.
Qed.

Lemma returns_map_method {B} (v : value) (f : value -> nat -> M B) :
  (forall item idx, nullish item = false -> returns (f item idx)) ->
  entries v = true -> returns (map_method v f).
Proof.
  intros Hf He. destruct v; try discriminate He.
  simpl. apply returns_mapM_from; assumption.
Qed.

Ltac reads :=
  repeat first
    [ apply returns_ret
    | apply returns_get; assumption
    | apply returns_bind; [| intro] ].

Lemma returns_renderHourlyForecast content :
  nullish content = false -> entries (prop content "hourly_forecast") = true ->
  returns (renderHourlyForecast content).
Proof.
  intros Hn He. unfold renderHourlyForecast.
  apply returns_get_then; [exact Hn|].
  apply returns_bind; [| intro; apply returns_ret].
  apply returns_map_method; [| exact He].
  intros hour idx Hhour. reads.
Qed.

Lemma returns_renderDailyForecast content :
  nullish content = false -> entries (prop content "daily_forecast") = true ->
  returns (renderDailyForecast content).
Proof.
  intros Hn He. unfold renderDailyForecast.
  apply returns_get_then; [exact Hn|].
  apply returns_bind; [| intro; apply returns_ret].
  apply returns_map_method; [| exact He].
  intros day idx Hday. reads.
Qed.

Lemma returns_renderMarineConditions content :
  nullish content = false -> nullish (prop content "wave_conditions") = false ->
  returns (renderMarineConditions content).
Proof.
  intros Hn Hw. unfold renderMarineConditions.
  repeat (apply returns_bind;
          [apply returns_get_then; [exact Hn | apply returns_get; exact Hw] | intro]).
  apply returns_ret.
Qed.

Lemma returns_renderAirQuality content :
  nullish content = false -> nullish (prop content "air_quality_metrics") = false ->
  returns (renderAirQuality content).
Proof.
  intros Hn Ha. unfold renderAirQuality.
  repeat (apply returns_bind;
          [apply returns_get_then; [exact Hn | apply returns_get; exact Ha] | intro]).
  apply returns_ret.
Qed.

Lemma returns_renderRecommendations content :
  nullish content = false -> recommendations_renderable content = true ->
  returns (renderRecommendations content).
Proof.
  intros Hn Hr. unfold renderRecommendations, recommendations_renderable in *.
  apply returns_get_then; [exact Hn|].
  destruct (truthy (opt_prop (prop content "recommendations") "length")); cbn [negb orb] in *.
  - apply returns_get_then; [exact Hn|].
    apply returns_bind; [| intro; apply returns_ret].
    apply returns_map_method; [| exact Hr].
    intros rec idx Hrec. reads.
  - apply returns_ret.
Qed.

Lemma returns_guarded_slot content k lit (rhs : M jsx) :
  nullish content = false ->
  (strict_eq_str (prop content k) lit = true -> returns rhs) ->
  returns (js_and (is_literal (get content k) lit) rhs).
Proof.
  intros Hn Hrhs.
  destruct (strict_eq_str (prop content k) lit) eqn:Hc.
  - destruct (Hrhs eq_refl) as [j Hj]. exists j. intros w.
    unfold js_and, is_literal, bind. rewrite (get_returns content k Hn).
    unfold ret. rewrite Hc. apply Hj.
  - exists (JExpr (VBool false)). intros w.
    unfold js_and, is_literal, bind. rewrite (get_returns content k Hn).
    unfold ret. rewrite Hc. reflexivity.
Qed.

Lemma returns_renderWeatherData JSON_stringify content :
  truthy (prop content "query_type") = true ->
  contract_kept content = true ->
  returns (renderWeatherData JSON_stringify content).
Proof.
  intros Hq Hc. unfold contract_kept in Hc.
  apply andb_prop in Hc as [Hc Hrecs].
  apply andb_prop in Hc as [Hc Hpay].
  apply andb_prop in Hc as [Hc Hcoord].
  apply andb_prop in Hc as [Hn Hloc].
  apply negb_true_iff in Hn, Hloc, Hcoord.
  unfold renderWeatherData.
  apply returns_get_then; [exact Hn|]. rewrite Hq. cbn [negb].
  apply returns_bind;
    [apply returns_get_then; [exact Hn | apply returns_get; exact Hloc] | intros city].
  apply returns_bind;
    [apply returns_get_then; [exact Hn|];
     apply returns_get_then; [exact Hloc | apply returns_get; exact Hcoord] | intros lat].
  apply returns_bind;
    [apply returns_get_then; [exact Hn|];
     apply returns_get_then; [exact Hloc | apply returns_get; exact Hcoord] | intros lon].
  apply returns_bind; [apply returns_get; exact Hn | intros summary].
  unfold payload_present in Hpay.
  apply returns_bind; [| intros hourly_slot].
  { apply returns_guarded_slot; [exact Hn|]. intros Ef.
    apply returns_guarded_slot; [exact Hn|]. intros Eh.
    apply strict_eq_str_true in Ef, Eh. rewrite Ef, Eh in Hpay.
    apply returns_renderHourlyForecast; [exact Hn | exact Hpay]. }
  apply returns_bind; [| intros daily_slot].
  { apply returns_guarded_slot; [exact Hn|]. intros Ef.
    apply returns_guarded_slot; [exact Hn|]. intros Ed.
    apply strict_eq_str_true in Ef, Ed. rewrite Ef, Ed in Hpay.
    apply returns_renderDailyForecast; [exact Hn | exact Hpay]. }
  apply returns_bind; [| intros marine_slot].
  { apply returns_guarded_slot; [exact Hn|]. intros Em.
    apply strict_eq_str_true in Em. rewrite Em in Hpay.
    apply returns_renderMarineConditions; [exact Hn|].
    apply negb_true_iff. exact Hpay. }
  apply returns_bind; [| intros air_slot].
  { apply returns_guarded_slot; [exact Hn|]. intros Ea.
    apply strict_eq_str_true in Ea. rewrite Ea in Hpay.
    apply returns_renderAirQuality; [exact Hn|].
    apply negb_true_iff. exact Hpay. }
  apply returns_bind; [| intros recs_slot; apply returns_ret].
  apply returns_renderRecommendations; [exact Hn | exact Hrecs].
Qed.

(** The first scenario of the specification, rendered. *)
Example lagos_card :
  fst (renderWeatherData stringify lagos initial_world)
  = Normal
      (el "div" "weather-analysis"
         [ el "div" "location-info mb-3"
             [ plain "h4"
                 [ JExpr (VStr "Lagos");
                   el "small" "text-muted ml-2"
                     [ text "("; JExpr (VNum (13 # 2)); text ", "; JExpr (VNum (17 # 5));
                       text ")" ] ] ];
           el "div" "summary-section mb-3" [ el "p" "lead" [JExpr (VStr "Mostly sunny")] ];
           JExpr (VBool false);
           el "div" "daily-forecast mb-3"
             [ plain "h5" [text "Daily Forecast"];
               JList
                 [ keyed "div" 0 "card mb-2"
                     [ el "div" "card-body"
                         [ el "h6" "card-title" [JExpr (VStr "2024-01-01")];
                           el "p" "card-text"
                             [ plain "strong" [text "Conditions:"]; text " ";
                               JExpr (VStr "Sunny"); br;
                               plain "strong" [text "Solar Potential:"]; text " ";
                               JExpr (VStr "High") ] ] ] ] ];
           JExpr (VBool false);
           JExpr (VBool false);
           jsx_null ]).
Proof. reflexivity. Qed.


(** * The handler around its [await] *)

(** The handler is what it does up to the [await] followed, when it got
    that far, by what it does from there. *)
Lemma handleSubmit_splits_at_await env now_user now_assistant reply (w : World) :
  handleSubmit env now_user now_assistant reply w
  = (suspended <- handleSubmit_until_await env now_user ;;
     if suspended then handleSubmit_resume now_assistant reply else ret tt) w.
Proof.
  unfold handleSubmit, handleSubmit_until_await, handleSubmit_resume, chat_request,
    axios_post, settle, bind, captured, preventDefault, emit.
  cbn -[Nat.leb errorMessage].
  destruct (10 <=? List.length (conversations (ui w)))%nat.
  - reflexivity.
  - unfold try_catch_finally. destruct reply; cbn -[errorMessage]; reflexivity.
Qed.

Lemma until_await_passes env now_user (w : World) :
  (List.length (conversations (ui w)) < 10)%nat ->
  handleSubmit_until_await env now_user w
  = (Normal true,
     {| ui := {| message := "";
                 conversations := conversations (ui w) ++ [userMessage (ui w) now_user];
                 loading := true;
                 error := jsx_null |};
        log := log w ++ submit_prefix env (ui w) now_user |}).
Proof.
  intros Hlen. apply Nat.leb_gt in Hlen.
  unfold handleSubmit_until_await, bind, captured, preventDefault, emit.
  cbn -[Nat.leb]. rewrite Hlen. cbn.
  repeat rewrite <- app_assoc. reflexivity.
Qed.

Lemma resume_resolved now_assistant res (w : World) :
  handleSubmit_resume now_assistant (Resolved res) w
  = (Normal tt,
     {| ui := {| message := message (ui w);
                 conversations := conversations (ui w) ++ [assistantMessage res now_assistant];
                 loading := false;
                 error := error (ui w) |};
        log := log w ++ [AppendConversation (assistantMessage res now_assistant);
                         SetLoading false] |}).
Proof.
  unfold handleSubmit_resume, try_catch_finally. cbn.
  rewrite <- app_assoc. reflexivity.
Qed.

Lemma resume_rejected now_assistant response (w : World) :
  exists msg,
    jsx_truthy msg = true
    /\ handleSubmit_resume now_assistant (Rejected response) w
       = (Normal tt,
          {| ui := {| message := message (ui w);
                      conversations := conversations (ui w);
                      loading := false;
                      error := msg |};
             log := log w ++ [ConsoleError "Error:"; SetError msg; SetLoading false] |}).
Proof.
  destruct (errorMessage_returns (AxiosError response)) as (msg & Htruthy & Hmsg).
  exists msg. split; [exact Htruthy|].
  unfold handleSubmit_resume, try_catch_finally. cbn -[errorMessage].
  unfold bind at 1. rewrite Hmsg. cbn. repeat rewrite <- app_assoc. reflexivity.
Qed.

Lemma resume_effect now_assistant reply (w : World) :
  let w' := after (handleSubmit_resume now_assistant reply) w in
  fst (handleSubmit_resume now_assistant reply w) = Normal tt
  /\ loading (ui w') = false
  /\ requests w' = requests w
  /\ message (ui w') = message (ui w)
  /\ conversations (ui w')
     = (conversations (ui w)
        ++ match reply with
           | Resolved res => [assistantMessage res now_assistant]
           | Rejected _ => []
           end)%list.
Proof.
  intros w'. subst w'. unfold after.
  destruct reply as [res | response].
  - rewrite resume_resolved. cbn [fst snd ui loading message conversations].
    rewrite requests_after. cbn. rewrite app_nil_r. repeat split.
  - destruct (resume_rejected now_assistant response w) as (msg & _ & Hrun).
    rewrite Hrun. cbn [fst snd ui loading message conversations].
    rewrite requests_after. cbn. rewrite !app_nil_r. repeat split.
Qed.

(** X2: When the request settles, whatever the state has become meanwhile:
    the handler completes normally (nothing escapes its [catch]), the
    in-flight flag is cleared, no further request is sent (a failure is
    not retried), the text being typed is left alone, and the turns are
    the ones found, followed by the reply when there is one. *)
Theorem resume_always_completes now_assistant reply (w : World) :
  let w' := after (handleSubmit_resume now_assistant reply) w in
  fst (handleSubmit_resume now_assistant reply w) = Normal tt
  /\ loading (ui w') = false
  /\ requests w' = requests w
  /\ message (ui w') = message (ui w)
  /\ conversations (ui w')
     = (conversations (ui w)
        ++ match reply with
           | Resolved res => [assistantMessage res now_assistant]
           | Rejected _ => []
           end)%list.
Proof.
  intros w'. subst w'. unfold after.
  destruct reply as [res | response].
  - rewrite resume_resolved. cbn [fst snd ui loading message conversations].
    rewrite requests_after. cbn. rewrite app_nil_r. repeat split.
  - destruct (resume_rejected now_assistant response w) as (msg & _ & Hrun).
    rewrite Hrun. cbn [fst snd ui loading message conversations].
    rewrite requests_after. cbn. rewrite !app_nil_r. repeat split.
Qed.

(** X3: After a submission the error value is truthy, which is the
    condition [error &&] under which the view holds the Alert element,
    exactly when the submission was turned away by the guard or its
    request failed; after a submission that was answered the error
    value is [null], whatever it was before.  What React makes of the
    value inside the Alert is not part of the statement. *)
Theorem error_value_after_submission env now_user now_assistant reply (w : World) :
  (jsx_truthy (error (ui (after (handleSubmit env now_user now_assistant reply) w))) = true
   <-> ((10 <= List.length (conversations (ui w)))%nat
        \/ exists response, reply = Rejected response))
  /\ (forall res,
        (List.length (conversations (ui w)) < 10)%nat ->
        reply = Resolved res ->
        error (ui (after (handleSubmit env now_user now_assistant reply) w)) = jsx_null).
Proof.
  unfold after. split.
  - destruct (le_lt_dec 10 (List.length (conversations (ui w)))) as [Hge | Hlt].
    + rewrite (handleSubmit_at_limit env now_user now_assistant reply w Hge).
      cbn. split; [intros _; left; exact Hge | reflexivity].
    + destruct reply as [res | response].
      * rewrite (handleSubmit_resolved env now_user now_assistant res w Hlt). cbn.
        split; [discriminate|].
        intros [Hge | [response Heq]]; [lia | discriminate].
      * destruct (handleSubmit_rejected env now_user now_assistant response w Hlt)
          as (msg & _ & Htruthy & Hrun).
        rewrite Hrun. cbn [snd ui error].
        split; [intros _; right; exists response; reflexivity | intros _; exact Htruthy].
  - intros res Hlt ->.
    rewrite (handleSubmit_resolved env now_user now_assistant res w Hlt). reflexivity.
Qed.

Lemma error_value_after_submission_witness :
  jsx_truthy
    (error (ui (after (handleSubmit None "10:01" "10:31" (Rejected None))
                  typing_first_question)))
  = true
  /\ (List.length (conversations (ui typing_after_failure)) < 10)%nat
  /\ jsx_truthy (error (ui typing_after_failure)) = true
  /\ error (ui (after (handleSubmit None "10:32" "10:33" (plain_answer "a2"))
                  typing_after_failure))
     = jsx_null.
Proof.
  assert (Hlen : (List.length (conversations (ui typing_after_failure)) < 10)%nat)
    by (apply Nat.ltb_lt; reflexivity).
  split; [|split; [exact Hlen | split; [reflexivity|]]].
  - apply (proj1 (error_value_after_submission None "10:01" "10:31" (Rejected None)
                    typing_first_question)).
    right. exists None. reflexivity.
  - exact (proj2 (error_value_after_submission None "10:32" "10:33" (plain_answer "a2")
                    typing_after_failure)
             {| data := VObj [("answer", VStr "a2")] |} Hlen eq_refl).
Defined.

(** * The component over time *)

Lemma ends_with_reply_app (l : list Turn) (t : Turn) :
  ends_with_reply (l ++ [t]) = is_assistant t.
Proof.
  induction l as [|a rest IH]; [reflexivity|].
  cbn [app ends_with_reply]. destruct rest as [|b rest']; [reflexivity|]. exact IH.
Qed.

Lemma no_double_reply_app (l : list Turn) (t : Turn) :
  no_double_reply (l ++ [t])
  = no_double_reply l && negb (ends_with_reply l && is_assistant t).
Proof.
  induction l as [|a rest IH]; [reflexivity|].
  destruct rest as [|b rest'].
  - cbn. rewrite andb_true_r. reflexivity.
  - change (no_double_reply ((a :: b :: rest') ++ [t]))
      with (negb (is_assistant a && is_assistant b) && no_double_reply ((b :: rest') ++ [t])).
    rewrite IH.
    change (no_double_reply (a :: b :: rest'))
      with (negb (is_assistant a && is_assistant b) && no_double_reply (b :: rest')).
    change (ends_with_reply (a :: b :: rest')) with (ends_with_reply (b :: rest')).
    apply andb_assoc.
Qed.

Lemma ends_with_reply_counted (l : list Turn) :
  ends_with_reply l = true -> (1 <= countTurns assistant l)%nat.
Proof.
  induction l as [|a rest IH]; [discriminate|].
  destruct rest as [|b rest'].
  - unfold countTurns. cbn. unfold is_assistant. intros ->. cbn. lia.
  - change (ends_with_reply (a :: b :: rest')) with (ends_with_reply (b :: rest')).
    intros H. specialize (IH H).
    change (a :: b :: rest') with ([a] ++ b :: rest')%list.
    rewrite countTurns_app. lia.
Qed.

Lemma replies_follow_questions (l : list Turn) :
  no_double_reply l = true ->
  (countTurns assistant l
   <= countTurns user l + (if starts_with_reply l then 1 else 0))%nat.
Proof.
  induction l as [|a rest IH]; [intros _; cbn; lia|].
  intros H.
  assert (Hrest : no_double_reply rest = true).
  { destruct rest as [|b rest']; [reflexivity|].
    cbn [no_double_reply] in H. apply andb_prop in H as [_ H]. exact H. }
  specialize (IH Hrest).
  change (a :: rest) with ([a] ++ rest)%list. rewrite !countTurns_app.
  unfold countTurns at 1 3. cbn [filter starts_with_reply app].
  unfold is_assistant in *.
  destruct (type a) eqn:Ha; cbn.
  - destruct (starts_with_reply rest); lia.
  - destruct rest as [|b rest']; [cbn in *; lia|].
    cbn [no_double_reply] in H. apply andb_prop in H as [H _].
    unfold is_assistant in H. rewrite Ha in H. cbn in H.
    cbn [starts_with_reply] in IH. unfold is_assistant in IH.
    destruct (TurnType_eqb (type b) assistant); [discriminate | lia].
Qed.

Lemma send_possible_inv (st : State) :
  send_possible st = true ->
  loading st = false /\ (List.length (conversations st) < 10)%nat.
Proof.
  unfold send_possible. intros H. apply andb_prop in H as [Hl Hn].
  apply negb_true_iff in Hl, Hn. apply Nat.leb_gt in Hn. split; assumption.
Qed.

Lemma perform_keeps_invariant (a : Action) (s s' : Session) :
  session_invariant s -> perform a s = Some s' -> session_invariant s'.
Proof.
  intros [Hnd Hcases] Hstep. unfold session_invariant, turns in *.
  destruct a as [typed | env now | now reply | ]; cbn [perform] in Hstep.
  - injection Hstep as <-. cbn. split; assumption.
  - destruct (send_possible (ui (world s))) eqn:Hsend; [|discriminate].
    injection Hstep as <-.
    apply send_possible_inv in Hsend as [Hload Hlen].
    destruct Hcases as [(Hfl & _ & _ & _) | (_ & Hl & _)]; [| congruence].
    unfold after. rewrite (until_await_passes env now (world s) Hlen).
    cbn [snd ui world in_flight conversations loading].
    rewrite no_double_reply_app, ends_with_reply_app, length_app. cbn.
    rewrite andb_false_r, andb_true_r.
    split; [exact Hnd|]. right. rewrite Hfl. repeat split. lia.
  - destruct (in_flight s) as [|n] eqn:Hfl; [discriminate|].
    injection Hstep as <-.
    destruct Hcases as [(Hz & _) | (Hone & _ & Hlen & Hends)]; [discriminate|].
    injection Hone as ->.
    unfold after. destruct reply as [res | response].
    + rewrite resume_resolved.
      cbn [snd ui world in_flight conversations loading].
      rewrite no_double_reply_app, ends_with_reply_app, length_app, Hends. cbn.
      rewrite andb_true_r.
      split; [exact Hnd|]. left. repeat split. lia.
    + destruct (resume_rejected now response (world s)) as (msg & _ & Hrun).
      rewrite Hrun. cbn [snd ui world in_flight conversations loading].
      split; [exact Hnd|]. left. repeat split; lia.
  - injection Hstep as <-. cbn.
    split; [reflexivity|].
    destruct Hcases as [(Hz & Hl & _) | (Hone & Hl & _)].
    + left. repeat split; try assumption; lia.
    + right. repeat split; try assumption. lia.
Qed.

Lemma run_keeps_invariant (actions : list Action) :
  forall s s', session_invariant s -> run actions s = Some s' -> session_invariant s'.
Proof.
  induction actions as [|a rest IH]; intros s s' Hinv Hrun; cbn [run] in Hrun.
  - injection Hrun as <-. exact Hinv.
  - destruct (perform a s) as [s1|] eqn:Hstep; [|discriminate].
    exact (IH s1 s' (perform_keeps_invariant a s s1 Hinv Hstep) Hrun).
Qed.

Lemma reachable_invariant (s : Session) : Reachable s -> session_invariant s.
Proof.
  intros [actions Hrun]. apply (run_keeps_invariant actions initial_session s); [|exact Hrun].
  split; [reflexivity|]. left. cbn. repeat split; lia.
Qed.

Lemma session_after_reachable (actions : list Action) :
  match run actions initial_session with Some _ => true | None => false end = true ->
  Reachable (session_after actions).
Proof.
  intros H. exists actions. unfold session_after.
  destruct (run actions initial_session); [reflexivity | discriminate].
Qed.

(** X4: One request at most is in flight at any time, and the in-flight flag
    is set exactly while one is: the Send button, disabled while the
    flag is set, is what keeps a second submission from starting. *)
Theorem one_request_in_flight (s : Session) :
  Reachable s ->
  (in_flight s <= 1)%nat
  /\ (loading (ui (world s)) = true <-> in_flight s = 1%nat).
Proof.
  intros Hr. destruct (reachable_invariant s Hr) as [_ Hcases].
  destruct Hcases as [(Hz & Hl & _) | (Hone & Hl & _)]; rewrite ?Hz, ?Hone, Hl.
  - split; [lia|]. split; discriminate.
  - split; [lia|]. split; reflexivity.
Qed.

Lemma one_request_in_flight_witness :
  Reachable (session_after waiting_for_reply)
  /\ (in_flight (session_after waiting_for_reply) <= 1)%nat
  /\ (loading (ui (world (session_after waiting_for_reply))) = true
      <-> in_flight (session_after waiting_for_reply) = 1%nat).
Proof.
  assert (Hr : Reachable (session_after waiting_for_reply))
    by (apply (session_after_reachable waiting_for_reply); vm_compute; reflexivity).
  split; [exact Hr|].
  exact (one_request_in_flight (session_after waiting_for_reply) Hr).
Defined.

Lemma remainingQuestions_of_length (st : State) :
  remainingQuestions st = (5 - Z.of_nat (List.length (conversations st)) / 2)%Z.
Proof. unfold remainingQuestions. rewrite floor_half. reflexivity. Qed.


(** X5: The session never holds more than eleven turns, and the number of
    questions shown as remaining is never negative and never above
    five. *)
Theorem counter_stays_in_range (s : Session) :
  Reachable s ->
  (List.length (turns s) <= 11)%nat
  /\ (0 <= remainingQuestions (ui (world s)) <= 5)%Z.
Proof.
  intros Hr. destruct (reachable_invariant s Hr) as [_ Hcases].
  assert (Hlen : (List.length (turns s) <= 11)%nat)
    by (destruct Hcases as [(_ & _ & H & _) | (_ & _ & H & _)]; lia).
  split; [exact Hlen|].
  rewrite remainingQuestions_of_length. fold (turns s).
  assert (0 <= Z.of_nat (List.length (turns s)) / 2)%Z
    by (apply Z.div_pos; lia).
  assert (Z.of_nat (List.length (turns s)) / 2 <= 11 / 2)%Z
    by (apply Z.div_le_mono; lia).
  change (11 / 2)%Z with 5%Z in *. lia.
Qed.

Lemma counter_stays_in_range_witness :
  Reachable (session_after restart_while_waiting)
  /\ (List.length (turns (session_after restart_while_waiting)) <= 11)%nat
  /\ (0 <= remainingQuestions (ui (world (session_after restart_while_waiting))) <= 5)%Z.
Proof.
  assert (Hr : Reachable (session_after restart_while_waiting))
    by (apply (session_after_reachable restart_while_waiting); vm_compute; reflexivity).
  split; [exact Hr|].
  exact (counter_stays_in_range (session_after restart_while_waiting) Hr).
Defined.

(** X6: What one session can hold: at most ten user turns, at most six
    assistant turns, and never two assistant turns in a row. *)
Theorem session_holds_ten_questions_at_most (s : Session) :
  Reachable s ->
  no_double_reply (turns s) = true
  /\ (countTurns user (turns s) <= 10)%nat
  /\ (countTurns assistant (turns s) <= 6)%nat.
Proof.
  intros Hr. destruct (reachable_invariant s Hr) as [Hnd Hcases].
  split; [exact Hnd|].
  pose proof (replies_follow_questions (turns s) Hnd) as Hcount.
  pose proof (countTurns_total (turns s)) as Htotal.
  assert (Hone : (countTurns assistant (turns s) <= countTurns user (turns s) + 1)%nat)
    by (destruct (starts_with_reply (turns s)); lia).
  destruct Hcases as [(_ & _ & Hlen & Heleven) | (_ & _ & Hlen & _)].
  - destruct (Nat.eq_dec (List.length (turns s)) 11) as [He | Hne].
    + pose proof (ends_with_reply_counted (turns s) (Heleven He)). lia.
    + lia.
  - lia.
Qed.

Lemma session_holds_ten_questions_at_most_witness :
  Reachable (session_after restart_while_waiting)
  /\ no_double_reply (turns (session_after restart_while_waiting)) = true
  /\ (countTurns user (turns (session_after restart_while_waiting)) <= 10)%nat
  /\ (countTurns assistant (turns (session_after restart_while_waiting)) <= 6)%nat.
Proof.
  assert (Hr : Reachable (session_after restart_while_waiting))
    by (apply (session_after_reachable restart_while_waiting); vm_compute; reflexivity).
  split; [exact Hr|].
  exact (session_holds_ten_questions_at_most (session_after restart_while_waiting) Hr).
Defined.

(** Both bounds are reached. *)
Example ten_user_turns :
  countTurns user (turns (session_after ten_timeouts)) = 10%nat.
Proof. vm_compute. reflexivity. Qed.

Example six_assistant_turns :
  countTurns assistant (turns (session_after restart_while_waiting)) = 6%nat
  /\ starts_with_reply (turns (session_after restart_while_waiting)) = true.
Proof. split; vm_compute; reflexivity. Qed.






(** X9: Turns are only ever appended, one at a time, and only a restart
    removes any (it removes all); so between two restarts the number
    of questions shown as remaining never goes up. *)
Theorem turns_are_append_only (a : Action) (s s' : Session) :
  perform a s = Some s' ->
  (a = Restart /\ turns s' = [])
  \/ (exists added,
        turns s' = (turns s ++ added)%list
        /\ (List.length added <= 1)%nat
        /\ (remainingQuestions (ui (world s')) <= remainingQuestions (ui (world s)))%Z).
Proof.
  intros Hstep.
  assert (Hmono : forall added,
            turns s' = (turns s ++ added)%list ->
            (remainingQuestions (ui (world s')) <= remainingQuestions (ui (world s)))%Z).
  { intros added Heq. rewrite !remainingQuestions_of_length.
    fold (turns s) (turns s'). rewrite Heq, length_app.
    assert (Z.of_nat (List.length (turns s)) / 2
            <= Z.of_nat (List.length (turns s) + List.length added) / 2)%Z
      by (apply Z.div_le_mono; lia).
    lia. }
  destruct a as [typed | env now | now reply | ]; cbn [perform] in Hstep.
  - right. exists []. injection Hstep as <-.
    assert (Heq : turns {| world := after (onChange typed) (world s);
                           in_flight := in_flight s |} = (turns s ++ [])%list)
      by (rewrite app_nil_r; reflexivity).
    split; [exact Heq|]. split; [cbn; lia | exact (Hmono [] Heq)].
  - destruct (send_possible (ui (world s))) eqn:Hsend; [|discriminate].
    apply send_possible_inv in Hsend as [_ Hlen].
    right. exists [userMessage (ui (world s)) now].
    assert (Heq : turns s' = (turns s ++ [userMessage (ui (world s)) now])%list).
    { injection Hstep as <-. unfold turns, after. cbn [world].
      rewrite (until_await_passes env now (world s) Hlen). reflexivity. }
    split; [exact Heq|]. split; [cbn; lia | exact (Hmono _ Heq)].
  - destruct (in_flight s) as [|n]; [discriminate|].
    right.
    exists (match reply with
            | Resolved res => [assistantMessage res now]
            | Rejected _ => []
            end).
    assert (Heq : turns s' = (turns s ++ match reply with
                                         | Resolved res => [assistantMessage res now]
                                         | Rejected _ => []
                                         end)%list).
    { injection Hstep as <-. unfold turns. cbn [world].
      exact (proj2 (proj2 (proj2 (proj2 (resume_effect now reply (world s)))))). }
    split; [exact Heq|]. split; [destruct reply; cbn; lia | exact (Hmono _ Heq)].
  - left. injection Hstep as <-. split; reflexivity.
Qed.

Lemma turns_are_append_only_witness :
  perform (Settle "2" (plain_answer "2")) (session_after waiting_for_reply)
  <> None
  /\ exists s',
       perform (Settle "2" (plain_answer "2")) (session_after waiting_for_reply) = Some s'
       /\ exists added,
            turns s' = (turns (session_after waiting_for_reply) ++ added)%list
            /\ (List.length added <= 1)%nat.
Proof.
  split; [vm_compute; discriminate|].
  eexists. split; [reflexivity|].
  destruct (turns_are_append_only (Settle "2" (plain_answer "2"))
              (session_after waiting_for_reply) _ eq_refl)
    as [(Habs & _) | (added & Heq & Hlen & _)].
  - discriminate Habs.
  - exists added. split; [exact Heq | exact Hlen].
Defined.

(** * The renderers, card by card *)

Lemma cards_from_cons (card : value -> nat -> jsx) (idx : nat) (item : value)
    (rest : list value) :
  cards_from card idx (item :: rest) = card item idx :: cards_from card (S idx) rest.
Proof. reflexivity. Qed.

Lemma cards_from_length (card : value -> nat -> jsx) (items : list value) :
  forall idx, List.length (cards_from card idx items) = List.length items.
Proof.
  induction items as [|item rest IH]; intros idx; [reflexivity|].
  rewrite cards_from_cons. cbn [List.length]. rewrite IH. reflexivity.
Qed.

Lemma cards_from_nth (card : value -> nat -> jsx) (items : list value) :
  forall idx i,
    nth_error (cards_from card idx items) i
    = option_map (fun item => card item (idx + i)%nat) (nth_error items i).
Proof.
  induction items as [|item rest IH]; intros idx i.
  - destruct i; reflexivity.
  - rewrite cards_from_cons. destruct i as [|i]; cbn [nth_error option_map].
    + rewrite Nat.add_0_r. reflexivity.
    + rewrite IH. rewrite Nat.add_succ_r. reflexivity.
Qed.

(** A [map] whose callback returns [card item idx] on every entry gives
    the cards of the entries, in their order, keyed by position. *)
Lemma mapM_from_cards (f : value -> nat -> M jsx) (card : value -> nat -> jsx)
    (items : list value) :
  (forall item idx, nullish item = false ->
                    forall w, f item idx w = (Normal (card item idx), w)) ->
  forallb (fun x => negb (nullish x)) items = true ->
  forall idx w, mapM_from f idx items w = (Normal (cards_from card idx items), w).
Proof.
  intros Hf. induction items as [|item rest IH]; intros Hall idx w.
  - reflexivity.
  - cbn [forallb] in Hall. apply andb_prop in Hall as [Hitem Hrest].
    apply negb_true_iff in Hitem.
    cbn [mapM_from]. unfold bind at 1. rewrite (Hf item idx Hitem).
    unfold bind at 1. rewrite (IH Hrest). reflexivity.
Qed.

Lemma hourly_callback (hour : value) (idx : nat) :
  nullish hour = false ->
  forall w,
    (h <- get hour "hour" ;;
     conditions <- get hour "conditions" ;;
     solar_potential <- get hour "solar_potential" ;;
     ret (keyed "div" idx "col-md-4 mb-2"
           [ el "div" "card h-100"
               [ el "div" "card-body"
                   [ el "h6" "card-title" [JExpr h];
                     el "p" "card-text"
                       [ plain "strong" [text "Conditions:"]; text " "; JExpr conditions; br;
                         plain "strong" [text "Solar Potential:"]; text " ";
                         JExpr solar_potential ] ] ] ])) w
    = (Normal (hourly_card hour idx), w).
Proof.
  intros Hn w. unfold bind. rewrite !(get_returns hour _ Hn). reflexivity.
Qed.

Lemma renderHourlyForecast_cards content (items : list value) (w : World) :
  nullish content = false ->
  prop content "hourly_forecast" = VArr items ->
  forallb (fun x => negb (nullish x)) items = true ->
  renderHourlyForecast content w
  = (Normal (el "div" "hourly-forecast mb-3"
               [ plain "h5" [text "Hourly Forecast"];
                 el "div" "row" [JList (cards_from hourly_card 0 items)] ]), w).
Proof.
  intros Hn Hp Hall. unfold renderHourlyForecast.
  unfold bind at 1. rewrite (get_returns content _ Hn), Hp.
  unfold bind at 1. cbn [map_method].
  rewrite (mapM_from_cards _ hourly_card items hourly_callback Hall). reflexivity.
Qed.

Lemma daily_callback (day : value) (idx : nat) :
  nullish day = false ->
  forall w,
    (date <- get day "date" ;;
     conditions <- get day "conditions" ;;
     solar_potential <- get day "solar_potential" ;;
     ret (keyed "div" idx "card mb-2"
           [ el "div" "card-body"
               [ el "h6" "card-title" [JExpr date];
                 el "p" "card-text"
                   [ plain "strong" [text "Conditions:"]; text " "; JExpr conditions; br;
                     plain "strong" [text "Solar Potential:"]; text " ";
                     JExpr solar_potential ] ] ])) w
    = (Normal (daily_card day idx), w).
Proof.
  intros Hn w. unfold bind. rewrite !(get_returns day _ Hn). reflexivity.
Qed.

Lemma renderDailyForecast_cards content (items : list value) (w : World) :
  nullish content = false ->
  prop content "daily_forecast" = VArr items ->
  forallb (fun x => negb (nullish x)) items = true ->
  renderDailyForecast content w
  = (Normal (el "div" "daily-forecast mb-3"
               [ plain "h5" [text "Daily Forecast"];
                 JList (cards_from daily_card 0 items) ]), w).
Proof.
  intros Hn Hp Hall. unfold renderDailyForecast.
  unfold bind at 1. rewrite (get_returns content _ Hn), Hp.
  unfold bind at 1. cbn [map_method].
  rewrite (mapM_from_cards _ daily_card items daily_callback Hall). reflexivity.
Qed.

Lemma recommendation_callback (rec : value) (idx : nat) :
  nullish rec = false ->
  forall w,
    (category <- get rec "category" ;;
     advice <- get rec "advice" ;;
     ret (keyed "div" idx "col-md-6 mb-2"
           [ el "div" "card h-100"
               [ el "div" "card-body"
                   [ el "h6" "card-title" [JExpr category];
                     el "p" "card-text" [JExpr advice] ] ] ])) w
    = (Normal (recommendation_card rec idx), w).
Proof.
  intros Hn w. unfold bind. rewrite !(get_returns rec _ Hn). reflexivity.
Qed.

Lemma renderRecommendations_cards content (first : value) (others : list value) (w : World) :
  nullish content = false ->
  prop content "recommendations" = VArr (first :: others) ->
  forallb (fun x => negb (nullish x)) (first :: others) = true ->
  renderRecommendations content w
  = (Normal (el "div" "recommendations-section mb-3"
               [ plain "h5" [text "Recommendations"];
                 el "div" "row"
                   [JList (cards_from recommendation_card 0 (first :: others))] ]), w).
Proof.
  intros Hn Hp Hall. unfold renderRecommendations.
  unfold bind at 1. rewrite (get_returns content _ Hn), Hp.
  rewrite truthy_length_of_array. cbn [nonempty_sequence negb].
  unfold bind at 1. rewrite (get_returns content _ Hn), Hp.
  unfold bind at 1. cbn [map_method].
  rewrite (mapM_from_cards _ recommendation_card _ recommendation_callback Hall).
  reflexivity.
Qed.

(** X10: The hourly block holds one card per entry of [hourly_forecast], in
    the order of the entries: the card at position [i] shows entry [i]
    and has [i] as its key.  An empty sequence gives the heading and no
    card. *)
Theorem hourly_cards_follow_entries content (items : list value) (w : World) :
  nullish content = false ->
  prop content "hourly_forecast" = VArr items ->
  forallb (fun x => negb (nullish x)) items = true ->
  exists cards,
    renderHourlyForecast content w
    = (Normal (el "div" "hourly-forecast mb-3"
                 [ plain "h5" [text "Hourly Forecast"];
                   el "div" "row" [JList cards] ]), w)
    /\ List.length cards = List.length items
    /\ forall i, nth_error cards i
                 = option_map (fun hour => hourly_card hour i) (nth_error items i).
Proof.
  intros Hn Hp Hall. exists (cards_from hourly_card 0 items).
  split; [apply renderHourlyForecast_cards; assumption|].
  split; [apply cards_from_length|].
  intros i. apply cards_from_nth.
Qed.

Lemma hourly_cards_follow_entries_witness :
  exists cards,
    renderHourlyForecast two_hours initial_world
    = (Normal (el "div" "hourly-forecast mb-3"
                 [ plain "h5" [text "Hourly Forecast"];
                   el "div" "row" [JList cards] ]), initial_world)
    /\ List.length cards = 2%nat.
Proof.
  destruct (hourly_cards_follow_entries two_hours
              [ VObj [("hour", VStr "09:00"); ("conditions", VStr "Clear");
                      ("solar_potential", VStr "Medium")];
                VObj [("hour", VStr "10:00"); ("conditions", VStr "Sunny");
                      ("solar_potential", VStr "High")] ]
              initial_world eq_refl eq_refl eq_refl)
    as (cards & Hrun & Hlen & _).
  exists cards. split; [exact Hrun | exact Hlen].
Defined.

(** X11: The daily block holds one card per entry of [daily_forecast], in the
    order of the entries, keyed by position. *)
Theorem daily_cards_follow_entries content (items : list value) (w : World) :
  nullish content = false ->
  prop content "daily_forecast" = VArr items ->
  forallb (fun x => negb (nullish x)) items = true ->
  exists cards,
    renderDailyForecast content w
    = (Normal (el "div" "daily-forecast mb-3"
                 [ plain "h5" [text "Daily Forecast"]; JList cards ]), w)
    /\ List.length cards = List.length items
    /\ forall i, nth_error cards i
                 = option_map (fun day => daily_card day i) (nth_error items i).
Proof.
  intros Hn Hp Hall. exists (cards_from daily_card 0 items).
  split; [apply renderDailyForecast_cards; assumption|].
  split; [apply cards_from_length|].
  intros i. apply cards_from_nth.
Qed.

Lemma daily_cards_follow_entries_witness :
  exists cards,
    renderDailyForecast lagos initial_world
    = (Normal (el "div" "daily-forecast mb-3"
                 [ plain "h5" [text "Daily Forecast"]; JList cards ]), initial_world)
    /\ List.length cards = 1%nat.
Proof.
  destruct (daily_cards_follow_entries lagos
              [ VObj [ ("date", VStr "2024-01-01"); ("conditions", VStr "Sunny");
                       ("solar_potential", VStr "High") ] ]
              initial_world eq_refl eq_refl eq_refl)
    as (cards & Hrun & Hlen & _).
  exists cards. split; [exact Hrun | exact Hlen].
Defined.

(** X12: A non-empty [recommendations] sequence gives the recommendations
    block with one card per entry, in the order of the entries, keyed by
    position. *)
Theorem recommendation_cards_follow_entries content (first : value) (others : list value)
    (w : World) :
  nullish content = false ->
  prop content "recommendations" = VArr (first :: others) ->
  forallb (fun x => negb (nullish x)) (first :: others) = true ->
  exists cards,
    renderRecommendations content w
    = (Normal (el "div" "recommendations-section mb-3"
                 [ plain "h5" [text "Recommendations"];
                   el "div" "row" [JList cards] ]), w)
    /\ List.length cards = S (List.length others)
    /\ forall i, nth_error cards i
                 = option_map (fun rec => recommendation_card rec i)
                     (nth_error (first :: others) i).
Proof.
  intros Hn Hp Hall. exists (cards_from recommendation_card 0 (first :: others)).
  split; [apply renderRecommendations_cards; assumption|].
  split; [apply cards_from_length|].
  intros i. apply cards_from_nth.
Qed.

Lemma recommendation_cards_follow_entries_witness :
  exists cards,
    renderRecommendations two_hours initial_world
    = (Normal (el "div" "recommendations-section mb-3"
                 [ plain "h5" [text "Recommendations"];
                   el "div" "row" [JList cards] ]), initial_world)
    /\ List.length cards = 1%nat.
Proof.
  destruct (recommendation_cards_follow_entries two_hours
              (VObj [("category", VStr "Panels"); ("advice", VStr "Clean them")]) []
              initial_world eq_refl eq_refl eq_refl)
    as (cards & Hrun & Hlen & _).
  exists cards. split; [exact Hrun | exact Hlen].
Defined.

(** * When the renderer returns *)

Lemma only_TypeError_ret {A} (a : A) : throws_only_TypeError (ret a).
Proof. intros w e w' H. discriminate. Qed.

Lemma only_TypeError_throw {A} : throws_only_TypeError (@throw A TypeError).
Proof. intros w e w' H. injection H as <- _. reflexivity. Qed.

Lemma only_TypeError_bind {A B} (m : M A) (k : A -> M B) :
  throws_only_TypeError m -> (forall a, throws_only_TypeError (k a)) ->
  throws_only_TypeError (bind m k).
Proof.
  intros Hm Hk w e w' H. unfold bind in H.
  destruct (m w) as [[a | e0] w1] eqn:Em.
  - exact (Hk a w1 e w' H).
  - injection H as <- _. exact (Hm w e0 w1 Em).
Qed.

Lemma only_TypeError_get (v : value) (k : string) : throws_only_TypeError (get v k).
Proof.
  unfold get. destruct (nullish v); [apply only_TypeError_throw | apply only_TypeError_ret].
Qed.

Lemma only_TypeError_mapM_from {A B} (f : A -> nat -> M B) (l : list A) :
  (forall a idx, throws_only_TypeError (f a idx)) ->
  forall idx, throws_only_TypeError (mapM_from f idx l).
Proof.
  intros Hf. induction l as [|a rest IH]; intros idx; simpl.
  - apply only_TypeError_ret.
  - apply only_TypeError_bind; [apply Hf|]. intros b.
    apply only_TypeError_bind; [apply IH|]. intros bs. apply only_TypeError_ret.
Qed.

Lemma only_TypeError_map_method {B} (v : value) (f : value -> nat -> M B) :
  (forall a idx, throws_only_TypeError (f a idx)) -> throws_only_TypeError (map_method v f).
Proof.
  intros Hf. destruct v; simpl; try apply only_TypeError_throw.
  apply only_TypeError_mapM_from. exact Hf.
Qed.

Lemma only_TypeError_is_literal (v : M value) (lit : string) :
  throws_only_TypeError v -> throws_only_TypeError (is_literal v lit).
Proof.
  intros Hv. apply only_TypeError_bind; [exact Hv|]. intros x. apply only_TypeError_ret.
Qed.

Lemma only_TypeError_js_and (cond : M bool) (rhs : M jsx) :
  throws_only_TypeError cond -> throws_only_TypeError rhs ->
  throws_only_TypeError (js_and cond rhs).
Proof.
  intros Hc Hr. apply only_TypeError_bind; [exact Hc|].
  intros [|]; [exact Hr | apply only_TypeError_ret].
Qed.

Create HintDb type_errors.
#[local] Hint Resolve only_TypeError_ret only_TypeError_throw only_TypeError_get
  only_TypeError_is_literal only_TypeError_js_and : type_errors.

Ltac only_type_errors :=
  repeat first
    [ solve [auto with type_errors]
    | apply only_TypeError_map_method; intros
    | apply only_TypeError_bind; [| intro] ].

Lemma only_TypeError_renderHourlyForecast content :
  throws_only_TypeError (renderHourlyForecast content).
Proof. unfold renderHourlyForecast. only_type_errors. Qed.

Lemma only_TypeError_renderDailyForecast content :
  throws_only_TypeError (renderDailyForecast content).
Proof. unfold renderDailyForecast. only_type_errors. Qed.

Lemma only_TypeError_renderMarineConditions content :
  throws_only_TypeError (renderMarineConditions content).
Proof. unfold renderMarineConditions. only_type_errors. Qed.

Lemma only_TypeError_renderAirQuality content :
  throws_only_TypeError (renderAirQuality content).
Proof. unfold renderAirQuality. only_type_errors. Qed.

Lemma only_TypeError_renderRecommendations content :
  throws_only_TypeError (renderRecommendations content).
Proof.
  unfold renderRecommendations.
  apply only_TypeError_bind; [apply only_TypeError_get|]. intros r.
  destruct (negb (truthy (opt_prop r "length"))); only_type_errors.
Qed.

#[local] Hint Resolve only_TypeError_renderHourlyForecast only_TypeError_renderDailyForecast
  only_TypeError_renderMarineConditions only_TypeError_renderAirQuality
  only_TypeError_renderRecommendations : type_errors.

Lemma only_TypeError_renderWeatherData JSON_stringify content :
  throws_only_TypeError (renderWeatherData JSON_stringify content).
Proof.
  unfold renderWeatherData.
  apply only_TypeError_bind; [apply only_TypeError_get|]. intros qt.
  destruct (negb (truthy qt)); only_type_errors.
Qed.

Lemma get_Normal_nullish v k w x w' :
  get v k w = (Normal x, w') -> nullish v = false.
Proof. unfold get. destruct (nullish v); intros H; [discriminate | reflexivity]. Qed.

Lemma mapM_from_Normal_entries {B} (f : value -> nat -> M B) (items : list value) :
  (forall item idx w b w', f item idx w = (Normal b, w') -> nullish item = false) ->
  forall idx w bs w',
    mapM_from f idx items w = (Normal bs, w') ->
    forallb (fun x => negb (nullish x)) items = true.
Proof.
  intros Hf. induction items as [|item rest IH]; intros idx w bs w' H; [reflexivity|].
  cbn [mapM_from] in H.
  apply bind_Normal in H as (b & w1 & Hb & H).
  apply bind_Normal in H as (bs' & w2 & Hbs & _).
  cbn [forallb]. rewrite (Hf item idx w b w1 Hb). cbn [negb andb].
  exact (IH (S idx) w1 bs' w2 Hbs).
Qed.

Lemma map_method_Normal_entries {B} (v : value) (f : value -> nat -> M B) w bs w' :
  (forall item idx w b w', f item idx w = (Normal b, w') -> nullish item = false) ->
  map_method v f w = (Normal bs, w') -> entries v = true.
Proof.
  intros Hf H. destruct v; try (cbn in H; discriminate).
  exact (mapM_from_Normal_entries f items Hf 0 w bs w' H).
Qed.

Ltac first_read H :=
  let a := fresh "a" in
  let w := fresh "w" in
  let Ha := fresh "Ha" in
  apply bind_Normal in H as (a & w & Ha & _);
  exact (get_Normal_nullish _ _ _ _ _ Ha).

Lemma renderHourlyForecast_Normal_entries content w j w' :
  renderHourlyForecast content w = (Normal j, w') ->
  entries (prop content "hourly_forecast") = true.
Proof.
  unfold renderHourlyForecast. intros H.
  apply bind_Normal in H as (v & w1 & Hv & H).
  apply get_Normal in Hv. subst v.
  apply bind_Normal in H as (cards & w2 & Hcards & _).
  apply (map_method_Normal_entries _ _ _ _ _) in Hcards; [exact Hcards|].
  intros item idx w0 b w0' Hb. first_read Hb.
Qed.

Lemma renderDailyForecast_Normal_entries content w j w' :
  renderDailyForecast content w = (Normal j, w') ->
  entries (prop content "daily_forecast") = true.
Proof.
  unfold renderDailyForecast. intros H.
  apply bind_Normal in H as (v & w1 & Hv & H).
  apply get_Normal in Hv. subst v.
  apply bind_Normal in H as (cards & w2 & Hcards & _).
  apply (map_method_Normal_entries _ _ _ _ _) in Hcards; [exact Hcards|].
  intros item idx w0 b w0' Hb. first_read Hb.
Qed.

Lemma nested_read_Normal content k k' w x w' :
  (v <- get content k ;; get v k') w = (Normal x, w') ->
  nullish (prop content k) = false.
Proof.
  intros H. apply bind_Normal in H as (v & w1 & Hv & H).
  apply get_Normal in Hv. subst v.
  exact (get_Normal_nullish _ _ _ _ _ H).
Qed.

Lemma renderMarineConditions_Normal content w j w' :
  renderMarineConditions content w = (Normal j, w') ->
  nullish (prop content "wave_conditions") = false.
Proof.
  unfold renderMarineConditions. intros H.
  apply bind_Normal in H as (x & w1 & Hx & _).
  exact (nested_read_Normal _ _ _ _ _ _ Hx).
Qed.

Lemma renderAirQuality_Normal content w j w' :
  renderAirQuality content w = (Normal j, w') ->
  nullish (prop content "air_quality_metrics") = false.
Proof.
  unfold renderAirQuality. intros H.
  apply bind_Normal in H as (x & w1 & Hx & _).
  exact (nested_read_Normal _ _ _ _ _ _ Hx).
Qed.

Lemma renderRecommendations_Normal content w j w' :
  renderRecommendations content w = (Normal j, w') ->
  recommendations_renderable content = true.
Proof.
  unfold renderRecommendations, recommendations_renderable. intros H.
  apply bind_Normal in H as (r & w1 & Hr & H).
  apply get_Normal in Hr. subst r.
  destruct (truthy (opt_prop (prop content "recommendations") "length"));
    cbn [negb orb] in *; [|reflexivity].
  apply bind_Normal in H as (r & w2 & Hr & H).
  apply get_Normal in Hr. subst r.
  apply bind_Normal in H as (cards & w3 & Hcards & _).
  apply (map_method_Normal_entries _ _ _ _ _) in Hcards; [exact Hcards|].
  intros item idx w0 b w0' Hb. first_read Hb.
Qed.

Lemma guarded_slot_ran content k lit (rhs : M jsx) w j w' :
  js_and (is_literal (get content k) lit) rhs w = (Normal j, w') ->
  strict_eq_str (prop content k) lit = true ->
  exists w1, rhs w1 = (Normal j, w').
Proof.
  intros H Hc. unfold js_and, is_literal in H.
  apply bind_Normal in H as (b & w1 & Hb & H).
  apply bind_Normal in Hb as (x & w2 & Hx & Hb).
  apply get_Normal in Hx. subst x.
  unfold ret in Hb. injection Hb as <- _.
  rewrite Hc in H. exists w1. exact H.
Qed.

Lemma selected_block_inv (qt tf : value) (b : Block) :
  selected_block qt tf = Some b ->
  match b with
  | HourlyBlock => strict_eq_str qt "forecast" = true /\ strict_eq_str tf "hourly" = true
  | DailyBlock => strict_eq_str qt "forecast" = true /\ strict_eq_str tf "daily" = true
  | MarineBlock => strict_eq_str qt "marine" = true
  | AirQualityBlock => strict_eq_str qt "air_quality" = true
  end.
Proof.
  unfold selected_block, query_type_of, time_frame_of.
  destruct (strict_eq_str qt "forecast"), (strict_eq_str qt "marine"),
    (strict_eq_str qt "air_quality"), (strict_eq_str tf "hourly"),
    (strict_eq_str tf "daily");
    intros H; try discriminate H; injection H as <-; auto.
Qed.

Lemma renderWeatherData_Normal_renderable JSON_stringify content w t w' :
  renderWeatherData JSON_stringify content w = (Normal t, w') ->
  renderable content = true.
Proof.
  intros H. unfold renderWeatherData in H.
  apply bind_Normal in H as (qt & wq & Hqt & H).
  pose proof (get_Normal_nullish _ _ _ _ _ Hqt) as Hn.
  apply get_Normal in Hqt. subst qt.
  unfold renderable. rewrite Hn. cbn [negb andb].
  destruct (truthy (prop content "query_type")); cbn [negb orb] in *; [|reflexivity].
  apply bind_Normal in H as (city & wc & Hcity & H).
  apply nested_read_Normal in Hcity.
  apply bind_Normal in H as (lat & wl & Hlat & H).
  apply bind_Normal in Hlat as (l & wl' & Hl & Hlat).
  apply get_Normal in Hl. subst l.
  apply nested_read_Normal in Hlat.
  do 2 past_bind H.
  apply bind_Normal in H as (hourly_slot & wh & Hhourly & H).
  apply bind_Normal in H as (daily_slot & wd & Hdaily & H).
  apply bind_Normal in H as (marine_slot & wm & Hmarine & H).
  apply bind_Normal in H as (air_slot & wa & Hair & H).
  apply bind_Normal in H as (recs_slot & wr & Hrecs & _).
  apply renderRecommendations_Normal in Hrecs.
  unfold contract_kept. rewrite Hn, Hcity, Hlat, Hrecs. cbn [negb andb].
  rewrite andb_true_r.
  unfold payload_present.
  destruct (selected_block (prop content "query_type") (prop content "time_frame"))
    as [[ | | | ]|] eqn:Hsel; [ | | | | reflexivity];
    apply selected_block_inv in Hsel.
  - destruct Hsel as [Hf Hh].
    apply guarded_slot_ran in Hhourly as [wx Hhourly]; [|exact Hf].
    apply guarded_slot_ran in Hhourly as [wy Hhourly]; [|exact Hh].
    exact (renderHourlyForecast_Normal_entries _ _ _ _ Hhourly).
  - destruct Hsel as [Hf Hd].
    apply guarded_slot_ran in Hdaily as [wx Hdaily]; [|exact Hf].
    apply guarded_slot_ran in Hdaily as [wy Hdaily]; [|exact Hd].
    exact (renderDailyForecast_Normal_entries _ _ _ _ Hdaily).
  - apply guarded_slot_ran in Hmarine as [wx Hmarine]; [|exact Hsel].
    rewrite (renderMarineConditions_Normal _ _ _ _ Hmarine). reflexivity.
  - apply guarded_slot_ran in Hair as [wx Hair]; [|exact Hsel].
    rewrite (renderAirQuality_Normal _ _ _ _ Hair). reflexivity.
Qed.

Lemma renderWeatherData_renderable JSON_stringify content :
  renderable content = true -> returns (renderWeatherData JSON_stringify content).
Proof.
  unfold renderable. intros H. apply andb_prop in H as [Hn H].
  apply negb_true_iff in Hn.
  destruct (truthy (prop content "query_type")) eqn:Hq; cbn [negb orb] in H.
  - apply returns_renderWeatherData; assumption.
  - exists (JExpr (JSON_stringify content)). intros w.
    apply renderWeatherData_falsy; assumption.
Qed.

Lemma renderWeatherData_not_renderable JSON_stringify content (w : World) :
  renderable content = false ->
  renderWeatherData JSON_stringify content w = (Throw TypeError, w).
Proof.
  intros Hnot.
  destruct (pure_renderWeatherData JSON_stringify content) as [r Hr].
  rewrite Hr. destruct r as [t | e].
  - specialize (Hr w).
    apply renderWeatherData_Normal_renderable in Hr. congruence.
  - rewrite (only_TypeError_renderWeatherData JSON_stringify content w e w (Hr w)).
    reflexivity.
Qed.

(** X13: The renderer returns exactly on the contents that are renderable:
    anything but [null] and [undefined] when [query_type] is falsy, and
    with a truthy [query_type] the documents that have their location,
    their coordinates, the payload their discriminants select and a
    well-formed [recommendations].  On every other content it throws a
    [TypeError], and nothing else. *)
Theorem renderWeatherData_returns_or_throws JSON_stringify (content : value) (w : World) :
  (renderable content = true ->
   exists t, renderWeatherData JSON_stringify content w = (Normal t, w))
  /\ (renderable content = false ->
      renderWeatherData JSON_stringify content w = (Throw TypeError, w)).
Proof.
  split.
  - intros H. destruct (renderWeatherData_renderable JSON_stringify content H) as [t Ht].
    exists t. apply Ht.
  - apply renderWeatherData_not_renderable.
Qed.

Lemma renderWeatherData_returns_or_throws_witness :
  (exists t, renderWeatherData stringify lagos initial_world = (Normal t, initial_world))
  /\ renderWeatherData stringify forecast_without_location initial_world
     = (Throw TypeError, initial_world).
Proof.
  split.
  - exact (proj1 (renderWeatherData_returns_or_throws stringify lagos initial_world) eq_refl).
  - exact (proj2 (renderWeatherData_returns_or_throws stringify forecast_without_location
                    initial_world) eq_refl).
Defined.

(** * The list of messages *)

Lemma renderMessage_renderable JSON_stringify (msg : Turn) (index : nat) :
  turn_renderable msg = true -> returns (renderMessage JSON_stringify msg index).
Proof.
  unfold turn_renderable, renderMessage. intros H.
  destruct (type msg); cbn [TurnType_eqb].
  - apply returns_bind; [apply returns_ret | intro; apply returns_ret].
  - apply returns_bind; [| intro; apply returns_ret].
    apply renderWeatherData_renderable. exact H.
Qed.

Lemma renderMessage_not_renderable JSON_stringify (msg : Turn) (index : nat) (w : World) :
  turn_renderable msg = false ->
  renderMessage JSON_stringify msg index w = (Throw TypeError, w).
Proof.
  unfold turn_renderable, renderMessage. intros H.
  destruct (type msg); [discriminate|]. cbn [TurnType_eqb].
  unfold bind. rewrite (renderWeatherData_not_renderable JSON_stringify _ w H).
  reflexivity.
Qed.

Lemma mapM_from_all (f : Turn -> nat -> M jsx) (l : list Turn) :
  (forall t idx, turn_renderable t = true -> returns (f t idx)) ->
  forallb turn_renderable l = true ->
  forall idx,
  exists items,
    (forall w, mapM_from f idx l w = (Normal items, w))
    /\ List.length items = List.length l
    /\ forall i t, nth_error l i = Some t ->
                   exists x, nth_error items i = Some x
                             /\ forall w, f t (idx + i)%nat w = (Normal x, w).
Proof.
  intros Hf. induction l as [|t rest IH]; intros Hall idx.
  - exists []. split; [reflexivity|]. split; [reflexivity|].
    intros i t H. destruct i; discriminate.
  - cbn [forallb] in Hall. apply andb_prop in Hall as [Ht Hrest].
    destruct (Hf t idx Ht) as [x Hx].
    destruct (IH Hrest (S idx)) as (items & Hrun & Hlen & Hnth).
    exists (x :: items). split; [|split].
    + intros w. cbn [mapM_from]. unfold bind. rewrite Hx, Hrun. reflexivity.
    + cbn. rewrite Hlen. reflexivity.
    + intros i t' Hi. destruct i as [|i]; cbn [nth_error] in *.
      * injection Hi as <-. exists x. rewrite Nat.add_0_r. split; [reflexivity | exact Hx].
      * destruct (Hnth i t' Hi) as (x' & Hx' & Hrun').
        exists x'. rewrite Nat.add_succ_r. split; assumption.
Qed.

Lemma mapM_from_one_bad (f : Turn -> nat -> M jsx) (l : list Turn) :
  (forall t idx, turn_renderable t = true -> returns (f t idx)) ->
  (forall t idx w, turn_renderable t = false -> f t idx w = (Throw TypeError, w)) ->
  forallb turn_renderable l = false ->
  forall idx w, mapM_from f idx l w = (Throw TypeError, w).
Proof.
  intros Hgood Hbad. induction l as [|t rest IH]; intros Hall idx w; [discriminate|].
  cbn [forallb] in Hall. cbn [mapM_from]. unfold bind at 1.
  destruct (turn_renderable t) eqn:Ht.
  - destruct (Hgood t idx Ht) as [x Hx]. rewrite Hx.
    unfold bind at 1. rewrite (IH Hall (S idx) w). reflexivity.
  - rewrite (Hbad t idx w Ht). reflexivity.
Qed.

Lemma renderConversation_broken JSON_stringify (l : list Turn) (w : World) :
  forallb turn_renderable l = false ->
  renderConversation JSON_stringify l w = (Throw TypeError, w).
Proof.
  intros H. unfold renderConversation.
  apply mapM_from_one_bad; [| | exact H].
  - intros t idx. apply renderMessage_renderable.
  - intros t idx w0. apply renderMessage_not_renderable.
Qed.

(** X14: The list of messages is rendered turn by turn, in order, the turn at
    position [i] with key [i]; it is rendered when every assistant turn
    holds a renderable content, and a single one that does not makes the
    whole list throw a [TypeError], the turns before it included.  A
    user turn never does: its text is shown as it is. *)
Theorem conversation_renders_or_throws JSON_stringify (l : list Turn) (w : World) :
  (forallb turn_renderable l = true ->
   exists items,
     renderConversation JSON_stringify l w = (Normal items, w)
     /\ List.length items = List.length l
     /\ forall i t, nth_error l i = Some t ->
                    exists x, nth_error items i = Some x
                              /\ renderMessage JSON_stringify t i w = (Normal x, w))
  /\ (forallb turn_renderable l = false ->
      renderConversation JSON_stringify l w = (Throw TypeError, w)).
Proof.
  split.
  - intros Hall.
    destruct (mapM_from_all (renderMessage JSON_stringify) l
                (fun t idx => renderMessage_renderable JSON_stringify t idx) Hall 0)
      as (items & Hrun & Hlen & Hnth).
    exists items. split; [apply Hrun|]. split; [exact Hlen|].
    intros i t Hi. destruct (Hnth i t Hi) as (x & Hx & Hrun').
    exists x. split; [exact Hx | apply Hrun'].
  - apply renderConversation_broken.
Qed.

Lemma conversation_renders_or_throws_witness :
  (exists items,
     renderConversation stringify (conversations (ui five_answered)) initial_world
     = (Normal items, initial_world)
     /\ List.length items = 10%nat)
  /\ renderConversation stringify
       [ {| type := user; content := VStr "q1"; timestamp := "10:01" |};
         {| type := assistant; content := forecast_without_location; timestamp := "10:01" |} ]
       initial_world
     = (Throw TypeError, initial_world).
Proof.
  split.
  - destruct (proj1 (conversation_renders_or_throws stringify
                       (conversations (ui five_answered)) initial_world) eq_refl)
      as (items & Hrun & Hlen & _).
    exists items. split; [exact Hrun | exact Hlen].
  - exact (proj2 (conversation_renders_or_throws stringify
                    [ {| type := user; content := VStr "q1"; timestamp := "10:01" |};
                      {| type := assistant; content := forecast_without_location;
                         timestamp := "10:01" |} ]
                    initial_world) eq_refl).
Defined.

(** X15: A reply is appended as it came, checked by nobody: when the request
    is answered with a content that is not renderable, the submission
    ends without any alert, and from then on the list of messages throws
    when rendered, whatever is appended after the reply. *)
Theorem unrenderable_reply_breaks_the_list JSON_stringify env now_user now_assistant
    (res : AxiosResponse) (w : World) :
  (List.length (conversations (ui w)) < 10)%nat ->
  renderable (data res) = false ->
  let w' := after (handleSubmit env now_user now_assistant (Resolved res)) w in
  alert_shown (ui w') = false
  /\ forall later w0,
       renderConversation JSON_stringify (conversations (ui w') ++ later) w0
       = (Throw TypeError, w0).
Proof.
  intros Hlen Hbad w'. subst w'. unfold after.
  rewrite (handleSubmit_resolved env now_user now_assistant res w Hlen).
  cbn [snd ui conversations]. split; [reflexivity|].
  intros later w0. apply renderConversation_broken.
  rewrite !forallb_app. cbn [forallb].
  unfold turn_renderable at 3. cbn [type content assistantMessage]. rewrite Hbad.
  cbn [andb]. rewrite andb_false_r. reflexivity.
Qed.

Lemma unrenderable_reply_breaks_the_list_witness :
  (List.length (conversations (ui typing_first_question)) < 10)%nat
  /\ renderable forecast_without_location = false
  /\ alert_shown
       (ui (after (handleSubmit None "10:01" "10:02"
                     (Resolved {| data := forecast_without_location |}))
              typing_first_question)) = false
  /\ renderConversation stringify
       (conversations
          (ui (after (handleSubmit None "10:01" "10:02"
                        (Resolved {| data := forecast_without_location |}))
                 typing_first_question)) ++ [])
       initial_world
     = (Throw TypeError, initial_world).
Proof.
  assert (Hlen : (List.length (conversations (ui typing_first_question)) < 10)%nat)
    by (apply Nat.ltb_lt; reflexivity).
  split; [exact Hlen|]. split; [reflexivity|].
  destruct (unrenderable_reply_breaks_the_list stringify None "10:01" "10:02"
              {| data := forecast_without_location |} typing_first_question Hlen eq_refl)
    as [Halert Hthrow].
  split; [exact Halert | exact (Hthrow [] initial_world)].
Defined.

(** * Requests and submissions *)

Lemma perform_requests (a : Action) (s s' : Session) :
  perform a s = Some s' ->
  List.length (requests (world s'))
  = (List.length (requests (world s)) + (if is_send a then 1 else 0))%nat.
Proof.
  intros Hstep.
  destruct a as [typed | env now | now reply | ]; cbn [perform is_send] in *.
  - injection Hstep as <-. cbn [world]. unfold after, onChange, setMessage, emit.
    cbn [snd]. rewrite requests_after. cbn. rewrite app_nil_r. lia.
  - destruct (send_possible (ui (world s))) eqn:Hsend; [|discriminate].
    apply send_possible_inv in Hsend as [_ Hlen].
    injection Hstep as <-. cbn [world]. unfold after.
    rewrite (until_await_passes env now (world s) Hlen). cbn [snd].
    rewrite requests_after, length_app. reflexivity.
  - destruct (in_flight s) as [|n]; [discriminate|].
    injection Hstep as <-. cbn [world].
    rewrite (proj1 (proj2 (proj2 (resume_effect now reply (world s))))). lia.
  - injection Hstep as <-. cbn [world].
    unfold after, reset, bind, setConversations, setError, emit, requests. cbn.
    rewrite <- app_assoc, filter_app. cbn. rewrite app_nil_r. lia.
Qed.

Lemma run_requests (actions : list Action) :
  forall s s',
    run actions s = Some s' ->
    List.length (requests (world s'))
    = (List.length (requests (world s)) + List.length (filter is_send actions))%nat.
Proof.
  induction actions as [|a rest IH]; intros s s' Hrun; cbn [run] in Hrun.
  - injection Hrun as <-. cbn. lia.
  - destruct (perform a s) as [s1|] eqn:Hstep; [|discriminate].
    rewrite (IH s1 s' Hrun), (perform_requests a s s1 Hstep).
    cbn [filter]. destruct (is_send a); cbn [List.length]; lia.
Qed.

(** X16: The component sends one request per submission made through
    the Send button and none besides: typing, restarting and the
    settling of a request, failed or not, send nothing, and no
    submission started that way is turned away by the guard. *)
Theorem one_request_per_submission (actions : list Action) (s : Session) :
  run actions initial_session = Some s ->
  List.length (requests (world s)) = List.length (filter is_send actions).
Proof.
  intros Hrun. rewrite (run_requests actions initial_session s Hrun). reflexivity.
Qed.

Lemma one_request_per_submission_witness :
  run ten_timeouts initial_session <> None
  /\ List.length (requests (world (session_after ten_timeouts))) = 10%nat.
Proof.
  split; [vm_compute; discriminate|].
  destruct (run ten_timeouts initial_session) as [s|] eqn:Hrun.
  - unfold session_after. rewrite Hrun.
    rewrite (one_request_per_submission ten_timeouts s Hrun). reflexivity.
  - exfalso. revert Hrun. vm_compute. discriminate.
Defined.

(** * The card, field by field *)



















(** * A failed submission, in the session *)

Lemma resume_rejected_with now_assistant response (msg : jsx) (w : World) :
  (forall w0, errorMessage (AxiosError response) w0 = (Normal msg, w0)) ->
  handleSubmit_resume now_assistant (Rejected response) w
  = (Normal tt,
     {| ui := {| message := message (ui w);
                 conversations := conversations (ui w);
                 loading := false;
                 error := msg |};
        log := log w ++ [ConsoleError "Error:"; SetError msg; SetLoading false] |}).
Proof.
  intros Hmsg. unfold handleSubmit_resume, try_catch_finally. cbn -[errorMessage].
  unfold bind at 1. rewrite Hmsg. cbn. repeat rewrite <- app_assoc. reflexivity.
Qed.

(** While a request is out and has not settled, nothing starts a second
    submission; typing and restarting leave the in-flight flag set, and
    the turns are the ones found, or none once the user restarted. *)
Lemma while_waiting (between : list Action) :
  forall s1 s2,
    loading (ui (world s1)) = true ->
    forallb (fun a => negb (is_settle a)) between = true ->
    run between s1 = Some s2 ->
    loading (ui (world s2)) = true
    /\ in_flight s2 = in_flight s1
    /\ turns s2 = if existsb is_restart between then [] else turns s1.
Proof.
  induction between as [|a rest IH]; intros s1 s2 Hload Hno Hrun; cbn [run] in Hrun.
  - injection Hrun as <-. repeat split. exact Hload.
  - cbn [forallb] in Hno. apply andb_prop in Hno as [Ha Hrest].
    destruct a as [typed | env now | now reply | ]; cbn [perform] in Hrun.
    + match type of Hrun with
      | run _ ?s' = _ => destruct (IH s' s2 Hload Hrest Hrun) as (Hl & Hf & Ht)
      end.
      split; [exact Hl|]. split; [exact Hf|]. exact Ht.
    + unfold send_possible in Hrun. rewrite Hload in Hrun. discriminate.
    + discriminate Ha.
    + match type of Hrun with
      | run _ ?s' = _ => destruct (IH s' s2 Hload Hrest Hrun) as (Hl & Hf & Ht)
      end.
      split; [exact Hl|]. split; [exact Hf|].
      rewrite Ht. cbn [existsb is_restart orb].
      destruct (existsb is_restart rest); reflexivity.
Qed.

(** C3, as the code has it: take a submission that passed the guard,
    any typing and restarting done while its request is out, and the
    settling of the request.  Afterwards the in-flight flag is cleared,
    on failure as on success.  The settling adds the reply on success
    and nothing on failure, and takes nothing away: the session still
    holds the user turn appended before the call, as its last turn on
    failure, unless the user restarted meanwhile, in which case the
    restart has emptied the session.  On failure the error value is
    truthy, and it is the fallback text when no response came back. *)
Theorem failed_submission_in_session (s s1 s2 s3 : Session) env now_user
    (between : list Action) now_assistant reply :
  perform (Send env now_user) s = Some s1 ->
  forallb (fun a => negb (is_settle a)) between = true ->
  run between s1 = Some s2 ->
  perform (Settle now_assistant reply) s2 = Some s3 ->
  loading (ui (world s3)) = false
  /\ turns s3
     = ((if existsb is_restart between
         then []
         else turns s ++ [userMessage (ui (world s)) now_user])
        ++ match reply with
           | Resolved res => [assistantMessage res now_assistant]
           | Rejected _ => []
           end)%list
  /\ forall response, reply = Rejected response ->
       jsx_truthy (error (ui (world s3))) = true
       /\ (response = None -> error (ui (world s3)) = text FALLBACK_MESSAGE).
Proof.
  intros Hsend Hno Hrun Hsettle.
  cbn [perform] in Hsend.
  destruct (send_possible (ui (world s))) eqn:Hpos; [|discriminate].
  apply send_possible_inv in Hpos as [_ Hlen].
  injection Hsend as <-.
  assert (Hw1 : after (handleSubmit_until_await env now_user) (world s)
                = snd (handleSubmit_until_await env now_user (world s))) by reflexivity.
  rewrite (until_await_passes env now_user (world s) Hlen) in Hw1. cbn [snd] in Hw1.
  match type of Hrun with
  | run _ ?s' = _ =>
      assert (Hload : loading (ui (world s')) = true)
        by (cbn [world]; rewrite Hw1; reflexivity);
      destruct (while_waiting between s' s2 Hload Hno Hrun) as (_ & Hfl & Hturns)
  end.
  cbn [in_flight] in Hfl.
  assert (Hbase : turns s2
                  = if existsb is_restart between
                    then []
                    else (turns s ++ [userMessage (ui (world s)) now_user])%list).
  { rewrite Hturns. destruct (existsb is_restart between); [reflexivity|].
    unfold turns. cbn [world]. rewrite Hw1. reflexivity. }
  cbn [perform] in Hsettle. rewrite Hfl in Hsettle. injection Hsettle as <-.
  cbn [world]. unfold turns at 1. cbn [world].
  destruct (resume_effect now_assistant reply (world s2)) as (_ & Hl & _ & _ & Hconv).
  split; [exact Hl|]. split.
  - rewrite Hconv. fold (turns s2). rewrite Hbase. reflexivity.
  - intros response ->.
    destruct (errorMessage_returns (AxiosError response)) as (msg & Htruthy & Hmsg).
    unfold after. rewrite (resume_rejected_with now_assistant response msg (world s2) Hmsg).
    cbn [snd ui error]. split; [exact Htruthy|].
    intros ->. specialize (Hmsg initial_world). cbn in Hmsg.
    injection Hmsg as <-. reflexivity.
Qed.

Lemma failed_submission_in_session_witness :
  perform (Send None "1") (session_after [Typing "1"])
  = Some (session_after [Typing "1"; Send None "1"])
  /\ run [Typing "2"] (session_after [Typing "1"; Send None "1"])
     = Some (session_after [Typing "1"; Send None "1"; Typing "2"])
  /\ perform (Settle "2" (Rejected None))
       (session_after [Typing "1"; Send None "1"; Typing "2"])
     = Some (session_after [Typing "1"; Send None "1"; Typing "2"; Settle "2" (Rejected None)])
  /\ loading
       (ui (world (session_after
                     [Typing "1"; Send None "1"; Typing "2"; Settle "2" (Rejected None)])))
     = false
  /\ turns (session_after [Typing "1"; Send None "1"; Typing "2"; Settle "2" (Rejected None)])
     = [ {| type := user; content := VStr "1"; timestamp := "1" |} ]
  /\ error
       (ui (world (session_after
                     [Typing "1"; Send None "1"; Typing "2"; Settle "2" (Rejected None)])))
     = text FALLBACK_MESSAGE.
Proof.
  assert (H1 : perform (Send None "1") (session_after [Typing "1"])
               = Some (session_after [Typing "1"; Send None "1"])) by reflexivity.
  assert (H2 : run [Typing "2"] (session_after [Typing "1"; Send None "1"])
               = Some (session_after [Typing "1"; Send None "1"; Typing "2"]))
    by reflexivity.
  assert (H3 : perform (Settle "2" (Rejected None))
                 (session_after [Typing "1"; Send None "1"; Typing "2"])
               = Some (session_after
                         [Typing "1"; Send None "1"; Typing "2"; Settle "2" (Rejected None)]))
    by reflexivity.
  destruct (failed_submission_in_session _ _ _ _ None "1" [Typing "2"] "2" (Rejected None)
              H1 eq_refl H2 H3)
    as (Hl & Hturns & Herr).
  split; [exact H1|]. split; [exact H2|]. split; [exact H3|].
  split; [exact Hl|]. split; [exact Hturns|].
  exact (proj2 (Herr None eq_refl) eq_refl).
Defined.

(** C3 as stated fails: the tenth turn of a session is a question that
    passed the guard; while its request is out the session holds ten
    turns, so "Start New Conversation" is offered, in-flight flag or
    not; the user presses it, the request then times out, and the
    session afterwards does not contain the user turn: it is empty. *)
Lemma restart_in_flight_loses_the_user_turn :
  send_possible (ui (world (session_after nine_timeouts_and_a_question))) = true
  /\ List.length (turns (session_after nine_timeouts_and_a_question)) = 9%nat
  /\ run restart_then_timeout initial_session <> None
  /\ List.length (turns (session_after tenth_question_sent)) = 10%nat
  /\ countTurns user (turns (session_after tenth_question_sent)) = 10%nat
  /\ loading (ui (world (session_after tenth_question_sent))) = true
  /\ reset_shown (ui (world (session_after tenth_question_sent))) = true
  /\ turns (session_after restart_then_timeout) = []
  /\ error (ui (world (session_after restart_then_timeout))) = text FALLBACK_MESSAGE
  /\ loading (ui (world (session_after restart_then_timeout))) = false.
Proof.
  repeat split; try (vm_compute; reflexivity).
  vm_compute. discriminate.
Qed.
